(** * The blog CMS of [cms.py]: a shallow embedding and its properties

    The development follows the source, leaf first: Python text
    operations, the tag scanner ([BlogPostParser]), the series classifier
    ([detect_series_from_content]), the metadata extractor
    ([parse_html_file]), the corpus indexer ([reindex_files]), the slug
    allocator ([create_slug]), the video id validator
    ([validate_youtube_id]) and the listing page splicer
    ([generate_blog_card_html], [update_blog_index]).

    Text is [string]: one [ascii] stands for one character of a Python
    [str], so the model covers the texts whose code points are below 256.
    The metadata store (a Python [dict]) is an association list in
    insertion order, one entry per slug. *)

From Stdlib Require Import Ascii String.
From stdpp Require Import strings list pretty sorting.

(** [simpl] may unfold the concatenation of texts. *)
#[local] Arguments String.append !_ _ / : simpl nomatch.

(** ** Python text operations *)

Module PyStr.

Definition code (c : ascii) : nat := nat_of_ascii c.

(** [str.isspace] on one character (code points below 256). *)
Definition isspace (c : ascii) : bool :=
  let n := code c in
  (((9 <=? n) && (n <=? 13)) || ((28 <=? n) && (n <=? 32))
   || (n =? 133) || (n =? 160))%nat.

(** [str.lower] on one character: the ASCII capitals and the Latin-1
    capitals (all of 192..222 but the multiplication sign 215). *)
Definition lower_char (c : ascii) : ascii :=
  let n := code c in
  if (((65 <=? n) && (n <=? 90))
      || ((192 <=? n) && (n <=? 222) && negb (n =? 215)))%nat
  then ascii_of_nat (n + 32) else c.

Fixpoint lower (s : string) : string :=
  match s with
  | "" => ""
  | String c s' => String (lower_char c) (lower s')
  end.

Fixpoint lstrip_by (f : ascii -> bool) (s : string) : string :=
  match s with
  | "" => ""
  | String c s' => if f c then lstrip_by f s' else s
  end.

Fixpoint rev_onto (s acc : string) : string :=
  match s with
  | "" => acc
  | String c s' => rev_onto s' (String c acc)
  end.

Definition rev (s : string) : string := rev_onto s "".

Definition rstrip_by (f : ascii -> bool) (s : string) : string :=
  rev (lstrip_by f (rev s)).

Definition strip_by (f : ascii -> bool) (s : string) : string :=
  rstrip_by f (lstrip_by f s).

(** [s.strip()] *)
Definition strip (s : string) : string := strip_by isspace s.

(** [s.startswith(p)] *)
Fixpoint startswith (p s : string) : bool :=
  match p, s with
  | "", _ => true
  | String _ _, "" => false
  | String a p', String b s' => if decide (a = b) then startswith p' s' else false
  end.

(** [p in s] *)
Fixpoint contains (p s : string) : bool :=
  startswith p s ||
  match s with
  | "" => false
  | String _ s' => contains p s'
  end.

(** [s[:n]] and [s[n:]] for [n >= 0] *)
Fixpoint take (n : nat) (s : string) : string :=
  match n, s with
  | 0, _ => ""
  | S _, "" => ""
  | S n', String c s' => String c (take n' s')
  end.

Fixpoint drop (n : nat) (s : string) : string :=
  match n, s with
  | 0, _ => s
  | S _, "" => ""
  | S n', String _ s' => drop n' s'
  end.

(** The lowest offset at which [p] starts in [s], counted from [i]. *)
Fixpoint find_from (p s : string) (i : nat) : option nat :=
  if startswith p s then Some i
  else match s with
       | "" => None
       | String _ s' => find_from p s' (S i)
       end.

(** [s.find(p, start)]; [None] stands for Python's [-1]. *)
Definition find (p s : string) (start : nat) : option nat :=
  if decide (start <= String.length s) then find_from p (drop start s) start
  else None.

(** [sep.join(l)] *)
Fixpoint join (sep : string) (l : list string) : string :=
  match l with
  | [] => ""
  | [x] => x
  | x :: l' => x +:+ sep +:+ join sep l'
  end.

(** [s.replace(old, new)] for a non-empty [old]: the occurrences are
    taken left to right and do not overlap; [skip] counts the characters
    of the current occurrence still to pass over. *)
Fixpoint replace_go (old new : string) (skip : nat) (s : string) : string :=
  match s with
  | "" => ""
  | String c s' =>
      match skip with
      | S k => replace_go old new k s'
      | 0 =>
          if startswith old s
          then new +:+ replace_go old new (String.length old - 1) s'
          else String c (replace_go old new 0 s')
      end
  end.

Definition replace (old new s : string) : string := replace_go old new 0 s.

(** The line feed and the double quote. *)
Definition nl : string := String (ascii_of_nat 10) "".
Definition dq : string := String (ascii_of_nat 34) "".

(** [s.split(nl)], the current line being accumulated in [cur]
    (reversed). *)
Fixpoint split_lines_go (cur : string) (s : string) : list string :=
  match s with
  | "" => [rev cur]
  | String c s' =>
      if decide (c = ascii_of_nat 10) then rev cur :: split_lines_go "" s'
      else split_lines_go (String c cur) s'
  end.

Definition split_lines (s : string) : list string := split_lines_go "" s.

(** [f"{v}"] for a value that is a [str] or [None]. *)
Definition format (v : option string) : string :=
  match v with
  | Some s => s
  | None => "None"
  end.

(** Truth value of a [str] or [None]. *)
Definition truthy (v : option string) : bool :=
  match v with
  | Some s => negb (bool_decide (s = ""))
  | None => false
  end.

End PyStr.

(** ** Series classifier: [BlogCMS.detect_series_from_content] *)

(** The pattern table, in its declaration order (a Python dict keeps
    insertion order, which [max] then follows). *)
Definition series_patterns : list (string * list string) :=
  [ ("after_hours", ["night"; "evening"; "late"; "pasar malam"; "after hours"; "nightlife"]);
    ("cram_and_cry", ["study"; "cram"; "cafe"; "coffee"; "library"; "exam"; "studying"]);
    ("food_for_heartbreak", ["food"; "eat"; "heartbreak"; "comfort"; "restaurant"; "meal"]);
    ("stressed_depressed", ["stress"; "depression"; "mental health"; "overwhelm"; "crisis"; "burnout"]);
    ("commute_crisis", ["commute"; "transport"; "bus"; "train"; "travel"; "journey"; "brt"]) ].

(** [sum(1 for pattern in patterns if pattern in text_to_search)] *)
Definition pattern_score (text : string) (patterns : list string) : nat :=
  length (filter (fun p => PyStr.contains p text = true) patterns).

(** The loop that fills [series_scores]: the series with a positive score,
    in table order. *)
Definition score_series (table : list (string * list string)) (text : string)
  : list (string * nat) :=
  filter (fun kv => 0 < kv.2)
         ((fun sp => (sp.1, pattern_score text sp.2)) <$> table).

(** [max(d, key=d.get)] after the first key: a later key replaces the
    current one only when its value is strictly greater. *)
Fixpoint max_by_value (best : string * nat) (rest : list (string * nat)) : string * nat :=
  match rest with
  | [] => best
  | kv :: rest' => max_by_value (if decide (best.2 < kv.2) then kv else best) rest'
  end.

Definition classify (table : list (string * list string)) (text : string) : string :=
  match score_series table text with
  | [] => ""
  | kv :: rest => (max_by_value kv rest).1
  end.

Definition text_to_search (title content : string) (keywords : option string) : string :=
  PyStr.lower (title +:+ " " +:+ content +:+ " " +:+ PyStr.format keywords).

Definition detect_series_from_content (title content : string) (keywords : option string)
  : string :=
  classify series_patterns (text_to_search title content keywords).

(** *** The measure of the classifier

    The description of the classifier counts, for each series, how many
    of its patterns occur as substrings of the lowercased text. These two
    definitions say that in their own terms, without the search and the
    counting of the code; the classifier is stated against them. *)

(** [p] occurs in [s] as a substring. *)
Definition occurs_in (p s : string) : Prop := exists a b, s = a +:+ p +:+ b.

(** [n] of the [patterns] occur in [text]. *)
Inductive match_count (text : string) : list string -> nat -> Prop :=
  | match_count_nil : match_count text [] 0
  | match_count_hit (p : string) (patterns : list string) (n : nat) :
      occurs_in p text -> match_count text patterns n ->
      match_count text (p :: patterns) (S n)
  | match_count_miss (p : string) (patterns : list string) (n : nat) :
      ~ occurs_in p text -> match_count text patterns n ->
      match_count text (p :: patterns) n.

(** ** Insertion-ordered dictionaries

    A Python [dict] keeps its keys in insertion order, and the listing page
    is rendered from [metadata_cache.values()] in that order, so the store
    is an association list with one entry per key. *)

Module Dict.
Section Ops.
Context {V : Type}.

(** [d.get(k)] *)
Fixpoint get (k : string) (d : list (string * V)) : option V :=
  match d with
  | [] => None
  | (k', v) :: d' => if decide (k = k') then Some v else get k d'
  end.

(** [d[k] = v]: an existing key keeps its place, a new one goes last. *)
Fixpoint set (k : string) (v : V) (d : list (string * V)) : list (string * V) :=
  match d with
  | [] => [(k, v)]
  | (k', v') :: d' => if decide (k = k') then (k, v) :: d' else (k', v') :: set k v d'
  end.

(** [k in d] *)
Definition mem (k : string) (d : list (string * V)) : bool :=
  bool_decide (is_Some (get k d)).

Definition keys (d : list (string * V)) : list string := d.*1.
Definition values (d : list (string * V)) : list V := d.*2.

(** [dict(pairs)]: a later pair of the same key wins. *)
Definition of_pairs (l : list (string * V)) : list (string * V) :=
  fold_left (fun d kv => set kv.1 kv.2 d) l [].
End Ops.
End Dict.

(** ** Tag scanner: [BlogPostParser]

    [html.parser.HTMLParser.feed] is Python's library tokenizer: it calls
    the handlers below once per start tag, end tag and text run. An
    attribute written without a value ([<div class>]) reaches the handler
    with the value [None]. *)

Inductive event : Type :=
  | StartTag (tag : string) (attrs : list (string * option string))
  | EndTag (tag : string)
  | Data (data : string).

(** The exceptions the modelled code can raise. *)
Inductive exn : Type :=
  | TypeError
  | OSError.

Definition result (A : Type) : Type := exn + A.

Definition ret {A : Type} (a : A) : result A := inr a.
Definition raise {A : Type} (e : exn) : result A := inl e.
Definition bind {A B : Type} (m : result A) (k : A -> result B) : result B :=
  match m with
  | inl e => inl e
  | inr a => k a
  end.

Notation "'do' x <- m ; k" := (bind m (fun x => k))
  (at level 10, x name, m at level 100, k at level 200).

Record BlogPostParser : Type := mkParser {
  meta_tags : list (string * option string);
  p_title : string;
  p_author : string;
  post_date : string;
  p_content : string;
  p_youtube_id : string;
  p_series : string;
  current_tag : string;
  in_title : bool;
  in_author : bool;
  in_date : bool;
  in_content : bool;
  content_depth : Z
}.

(** [BlogPostParser.__init__] *)
Definition new_parser : BlogPostParser :=
  {| meta_tags := []; p_title := ""; p_author := ""; post_date := "";
     p_content := ""; p_youtube_id := ""; p_series := ""; current_tag := "";
     in_title := false; in_author := false; in_date := false;
     in_content := false; content_depth := 0 |}.

(** [attrs_dict.get(k, '')]: the value of a present key, be it [None]. *)
Definition attr_get_default (k : string) (attrs_dict : list (string * option string))
  : option string :=
  match Dict.get k attrs_dict with
  | Some v => v
  | None => Some ""
  end.

(** [attrs_dict.get(k) == s] *)
Definition attr_is (k s : string) (attrs_dict : list (string * option string)) : bool :=
  bool_decide (Dict.get k attrs_dict = Some (Some s)).

(** [needle in v]: a [TypeError] when [v] is [None]. *)
Definition py_in (needle : string) (v : option string) : result bool :=
  match v with
  | Some s => ret (PyStr.contains needle s)
  | None => raise TypeError
  end.

(** The class [[a-zA-Z0-9_-]] of the two video id patterns. *)
Definition is_id_char (c : ascii) : bool :=
  let n := PyStr.code c in
  (((97 <=? n) && (n <=? 122)) || ((65 <=? n) && (n <=? 90))
   || ((48 <=? n) && (n <=? 57)) || (n =? 95) || (n =? 45))%nat.

(** The longest prefix of [s] made of characters of [cls]. *)
Fixpoint take_while (cls : ascii -> bool) (s : string) : string :=
  match s with
  | "" => ""
  | String c s' => if cls c then String c (take_while cls s') else ""
  end.

(** [re.search(r'youtube\.com/embed/([a-zA-Z0-9_-]+)', src)]: group 1 of the
    leftmost match, the greedy run of id characters after the prefix. *)
Fixpoint search_embed_id (src : string) : option string :=
  let here :=
    if PyStr.startswith "youtube.com/embed/" src
    then match take_while is_id_char (PyStr.drop 18 src) with
         | "" => None
         | id => Some id
         end
    else None in
  match here with
  | Some id => Some id
  | None => match src with
            | "" => None
            | String _ src' => search_embed_id src'
            end
  end.

(** [b and r], where only [r] can raise: [r] is not evaluated when [b] is
    false. *)
Definition and_then (b : bool) (r : result bool) : result bool :=
  if b then r else ret false.

Definition set_meta_tag (k : string) (v : option string) (p : BlogPostParser) : BlogPostParser :=
  mkParser (Dict.set k v (meta_tags p)) (p_title p) (p_author p) (post_date p) (p_content p)
    (p_youtube_id p) (p_series p) (current_tag p) (in_title p) (in_author p) (in_date p)
    (in_content p) (content_depth p).

Definition set_texts (title author date content : string) (p : BlogPostParser) : BlogPostParser :=
  mkParser (meta_tags p) title author date content
    (p_youtube_id p) (p_series p) (current_tag p) (in_title p) (in_author p) (in_date p)
    (in_content p) (content_depth p).

Definition set_youtube_id (id : string) (p : BlogPostParser) : BlogPostParser :=
  mkParser (meta_tags p) (p_title p) (p_author p) (post_date p) (p_content p)
    id (p_series p) (current_tag p) (in_title p) (in_author p) (in_date p)
    (in_content p) (content_depth p).

Definition set_current_tag (tag : string) (p : BlogPostParser) : BlogPostParser :=
  mkParser (meta_tags p) (p_title p) (p_author p) (post_date p) (p_content p)
    (p_youtube_id p) (p_series p) tag (in_title p) (in_author p) (in_date p)
    (in_content p) (content_depth p).

Definition set_flags (title author date : bool) (p : BlogPostParser) : BlogPostParser :=
  mkParser (meta_tags p) (p_title p) (p_author p) (post_date p) (p_content p)
    (p_youtube_id p) (p_series p) (current_tag p) title author date
    (in_content p) (content_depth p).

Definition set_content_state (inside : bool) (depth : Z) (p : BlogPostParser) : BlogPostParser :=
  mkParser (meta_tags p) (p_title p) (p_author p) (post_date p) (p_content p)
    (p_youtube_id p) (p_series p) (current_tag p) (in_title p) (in_author p) (in_date p)
    inside depth.

Definition handle_starttag (tag : string) (attrs : list (string * option string))
    (self : BlogPostParser) : result BlogPostParser :=
  let attrs_dict := Dict.of_pairs attrs in
  let cls := attr_get_default "class" attrs_dict in
  let src := attr_get_default "src" attrs_dict in
  let is_div := bool_decide (tag = "div") in
  let finish (p : BlogPostParser) : result BlogPostParser :=
    ret (set_current_tag tag p) in
  if decide (tag = "meta") then
    let name := attr_get_default "name" attrs_dict in
    let property_val := attr_get_default "property" attrs_dict in
    let content := attr_get_default "content" attrs_dict in
    if PyStr.truthy name then
      finish (set_meta_tag (PyStr.format name) content self)
    else if PyStr.truthy property_val then
      finish (set_meta_tag (PyStr.format property_val) content self)
    else finish self
  else if decide (tag = "title") then
    finish (set_flags true (in_author self) (in_date self) self)
  else if bool_decide (tag = "span") && attr_is "class" "post-author" attrs_dict then
    finish (set_flags (in_title self) true (in_date self) self)
  else if bool_decide (tag = "span") && attr_is "class" "post-date" attrs_dict then
    finish (set_flags (in_title self) (in_author self) true self)
  else
    do article <- and_then is_div (py_in "article-content" cls);
    if article : bool then finish (set_content_state true 1 self) else
    do video <- and_then is_div (py_in "video-container" cls);
    if video : bool then finish (set_content_state true 1 self) else
    do poster <- and_then is_div (py_in "poster-container" cls);
    if poster : bool then finish (set_content_state true 1 self) else
    do embed <- and_then (bool_decide (tag = "iframe")) (py_in "youtube.com/embed/" src);
    if embed : bool then
      match search_embed_id (PyStr.format src) with
      | Some id => finish (set_youtube_id id self)
      | None => finish self
      end
    else if in_content self && is_div then
      finish (set_content_state true (content_depth self + 1) self)
    else finish self.

Definition handle_endtag (tag : string) (self : BlogPostParser) : BlogPostParser :=
  let p :=
    if decide (tag = "title") then set_flags false (in_author self) (in_date self) self
    else if bool_decide (tag = "span") && in_author self then
      set_flags (in_title self) false (in_date self) self
    else if bool_decide (tag = "span") && in_date self then
      set_flags (in_title self) (in_author self) false self
    else if bool_decide (tag = "div") && in_content self then
      let depth := (content_depth self - 1)%Z in
      set_content_state (if decide (depth <= 0)%Z then false else true) depth self
    else self in
  set_current_tag "" p.

Definition handle_data (data : string) (self : BlogPostParser) : BlogPostParser :=
  let data := PyStr.strip data in
  if decide (data = "") then self
  else if in_title self then
    set_texts (p_title self +:+ data) (p_author self) (post_date self) (p_content self) self
  else if in_author self then
    set_texts (p_title self) (p_author self +:+ data) (post_date self) (p_content self) self
  else if in_date self then
    set_texts (p_title self) (p_author self) (post_date self +:+ data) (p_content self) self
  else if in_content self then
    set_texts (p_title self) (p_author self) (post_date self) (p_content self +:+ data +:+ " ") self
  else self.

Definition handle_event (self : BlogPostParser) (e : event) : result BlogPostParser :=
  match e with
  | StartTag tag attrs => handle_starttag tag attrs self
  | EndTag tag => ret (handle_endtag tag self)
  | Data data => ret (handle_data data self)
  end.

(** The handler calls of one [feed], in order; the first exception ends
    the feed. *)
Fixpoint run_events (self : BlogPostParser) (events : list event) : result BlogPostParser :=
  match events with
  | [] => ret self
  | e :: events' => do p <- handle_event self e; run_events p events'
  end.

(** ** Records and the library interface *)

(** [PostMetadata]. [keywords] is declared [str] but a scan can leave
    [None] there ([<meta name="keywords" content>]). *)
Record PostMetadata : Type := mkPost {
  slug : string;
  title : string;
  author : string;
  post_type : string;
  description : string;
  keywords : option string;
  image_url : string;
  series : string;
  youtube_id : string;
  created_date : string;
  modified_date : string;
  published : bool;
  view_count : Z;
  file_hash : string;
  indexed_from_file : bool
}.

(** One [*.html] file of the blog directory: its stem, its text ([None]
    when [open] or [read] raises) and its modification time as
    [fromtimestamp(st_mtime).strftime("%Y-%m-%d %H:%M:%S")] renders it
    ([None] when [stat] raises). *)
Record File : Type := mkFile {
  stem : string;
  file_text : option string;
  file_mtime : option string
}.

Definition file_name (f : File) : string := stem f +:+ ".html".

(** The Python library the code calls: the HTML tokenizer, [datetime]
    parsing and formatting ([strptime] answers [None] for a [ValueError])
    and the MD5 digest. *)
Class PyLib : Type := {
  datetime : Type;
  html_feed : string -> list event;
  strptime : string -> string -> option datetime;
  strftime : datetime -> string -> string;
  md5_hexdigest : string -> string
}.

(** [a or d] for a [str]-or-[None] [a] and a [str] [d]. *)
Definition or_else (a : option string) (d : string) : string :=
  if PyStr.truthy a then PyStr.format a else d.

(** [meta_tags.get(k, d)] *)
Definition meta_get (k : string) (d : string) (parser : BlogPostParser) : option string :=
  match Dict.get k (meta_tags parser) with
  | Some v => v
  | None => Some d
  end.

Definition site_suffix : string := " - The Bandar Breakdowns".
Definition default_keywords : string := "bandar sunway, blog".
Definition placeholder_image : string :=
  "https://via.placeholder.com/800x400/cccccc/000000?text=No+Image".
Definition scan_date_formats : list string := ["%b %d, %Y"; "%B %d, %Y"; "%d %b %Y"].
Definition stamp_format : string := "%Y-%m-%d %H:%M:%S".

Section Extractor.
Context `{lib : PyLib}.

(** The [for fmt in ...] loop: the first format that parses decides. *)
Fixpoint parse_post_date (text : string) (fmts : list string) : string :=
  match fmts with
  | [] => ""
  | fmt :: fmts' =>
      match strptime text fmt with
      | Some date_obj => strftime date_obj stamp_format
      | None => parse_post_date text fmts'
      end
  end.

(** The body of the [try] in [parse_html_file]. *)
Definition parse_html_file_body (filepath : File) : result PostMetadata :=
  match file_text filepath with
  | None => raise OSError
  | Some content =>
      do parser <- run_events new_parser (html_feed content);
      let slug := stem filepath in
      let title := PyStr.strip (PyStr.replace site_suffix "" (p_title parser)) in
      let post_type :=
        if PyStr.contains "poster-container" content then "Poster"
        else if PyStr.contains "video-container" content
                || negb (bool_decide (p_youtube_id parser = "")) then "Video"
        else if PyStr.contains "article-content" content then "Article"
        else "Article" in
      let description :=
        if decide (200 < String.length (p_content parser)) then
          or_else (meta_get "description" "" parser)
            (or_else (meta_get "og:description" "" parser)
               (PyStr.take 200 (p_content parser) +:+ "..."))
        else p_content parser in
      let keywords := meta_get "keywords" default_keywords parser in
      let image_url :=
        or_else (meta_get "og:image" "" parser)
          (or_else (meta_get "twitter:image" "" parser) placeholder_image) in
      let author := if decide (p_author parser = "") then "The Team" else p_author parser in
      let parsed_date :=
        if decide (post_date parser = "") then ""
        else parse_post_date (post_date parser) scan_date_formats in
      do created_date <-
        (if decide (parsed_date = "") then
           match file_mtime filepath with
           | Some stamp => ret stamp
           | None => raise OSError
           end
         else ret parsed_date);
      let series := detect_series_from_content title (p_content parser) keywords in
      let file_hash := md5_hexdigest content in
      ret {| slug := slug;
             title := if decide (title = "") then "Untitled (" +:+ slug +:+ ")" else title;
             author := author;
             post_type := post_type;
             description := description;
             keywords := keywords;
             image_url := image_url;
             series := series;
             youtube_id := p_youtube_id parser;
             created_date := created_date;
             modified_date := created_date;
             published := true;
             view_count := 0;
             file_hash := file_hash;
             indexed_from_file := true |}
  end.

(** [parse_html_file]: [except Exception] logs the error and answers
    [None]. *)
Definition parse_html_file (filepath : File) : option PostMetadata :=
  match parse_html_file_body filepath with
  | inr metadata => Some metadata
  | inl _ => None
  end.

End Extractor.

(** ** The CMS state

    Logging and console output are not modelled; an operation that only
    logs an error and returns answers the matching outcome instead. *)

Record World : Type := mkWorld {
  metadata_cache : list (string * PostMetadata);
  (** what [posts_metadata.json] holds, [None] while it does not exist *)
  metadata_file : option (list (string * PostMetadata));
  (** the copies [posts_metadata.json.backup.<time>] *)
  metadata_backups : list (list (string * PostMetadata));
  (** [blog_path.glob("*.html")], in the order the directory gives *)
  blog_files : list File;
  (** the text of [blog/index.html], [None] while it does not exist *)
  index_html : option string;
  (** the copies of the listing page in the backup directory *)
  index_backups : list string
}.

Definition set_cache (cache : list (string * PostMetadata)) (w : World) : World :=
  mkWorld cache (metadata_file w) (metadata_backups w) (blog_files w)
    (index_html w) (index_backups w).

(** [_save_metadata] *)
Definition save_metadata (w : World) : World :=
  mkWorld (metadata_cache w) (Some (metadata_cache w)) (metadata_backups w)
    (blog_files w) (index_html w) (index_backups w).

(** The copy of the metadata file that [reindex_files] takes first. *)
Definition backup_metadata (w : World) : World :=
  match metadata_file w with
  | Some stored =>
      mkWorld (metadata_cache w) (metadata_file w) (stored :: metadata_backups w)
        (blog_files w) (index_html w) (index_backups w)
  | None => w
  end.

(** [create_backup(index_path)] on an existing listing page. *)
Definition backup_index (content : string) (w : World) : World :=
  mkWorld (metadata_cache w) (metadata_file w) (metadata_backups w)
    (blog_files w) (index_html w) (content :: index_backups w).

Definition write_index (content : string) (w : World) : World :=
  mkWorld (metadata_cache w) (metadata_file w) (metadata_backups w)
    (blog_files w) (Some content) (index_backups w).

(** [[f for f in html_files if f.name != "index.html"]] *)
Definition html_files (w : World) : list File :=
  filter (fun f => file_name f <> "index.html") (blog_files w).

(** ** Corpus indexer: [BlogCMS.reindex_files] *)

Record Counts : Type := mkCounts {
  updated_count : nat;
  error_count : nat
}.

Definition set_view_count (n : Z) (m : PostMetadata) : PostMetadata :=
  mkPost (slug m) (title m) (author m) (post_type m) (description m) (keywords m)
    (image_url m) (series m) (youtube_id m) (created_date m) (modified_date m)
    (published m) n (file_hash m) (indexed_from_file m).

Definition set_curated (created author series : string) (m : PostMetadata) : PostMetadata :=
  mkPost (slug m) (title m) author (post_type m) (description m) (keywords m)
    (image_url m) series (youtube_id m) created (modified_date m)
    (published m) (view_count m) (file_hash m) (indexed_from_file m).

(** The [if slug in original_metadata] block. *)
Definition preserve_original (original : option PostMetadata) (metadata : PostMetadata)
  : PostMetadata :=
  match original with
  | Some original =>
      let metadata := set_view_count (view_count original) metadata in
      if negb (indexed_from_file original)
      then set_curated (created_date original) (author original) (series original) metadata
      else metadata
  | None => metadata
  end.

Section Indexer.
Context `{lib : PyLib}.

Definition scan_fails (f : File) : Prop := parse_html_file f = None.
Definition scan_succeeds (f : File) : Prop := is_Some (parse_html_file f).

(** One turn of the [for file_path in html_files] loop. *)
Definition reindex_file (original_metadata : list (string * PostMetadata))
    (st : list (string * PostMetadata) * Counts) (file_path : File)
  : list (string * PostMetadata) * Counts :=
  let '(cache, counts) := st in
  let slug := stem file_path in
  match parse_html_file file_path with
  | Some metadata =>
      let metadata := preserve_original (Dict.get slug original_metadata) metadata in
      (Dict.set slug metadata cache,
       mkCounts (S (updated_count counts)) (error_count counts))
  | None => (cache, mkCounts (updated_count counts) (S (error_count counts)))
  end.

Definition reindex_loop (original_metadata : list (string * PostMetadata))
    (files : list File) (st : list (string * PostMetadata) * Counts)
  : list (string * PostMetadata) * Counts :=
  fold_left (reindex_file original_metadata) files st.

(** [reindex_files]; [confirmed] is the answer to the prompt. *)
Definition reindex_files (confirmed : bool) (w : World) : World * Counts :=
  if negb confirmed then (w, mkCounts 0 0)
  else
    let w := backup_metadata w in
    let original_metadata := metadata_cache w in
    let '(cache, counts) :=
      reindex_loop original_metadata (html_files w) (metadata_cache w, mkCounts 0 0) in
    let w := set_cache cache w in
    ((if decide (0 < updated_count counts) then save_metadata w else w), counts).

End Indexer.

(** ** Slug allocator: [BlogCMS.create_slug] *)

(** [\w] of a [str] pattern: letters, digits, numerics and the underscore. *)
Definition is_word_char (c : ascii) : bool :=
  let n := PyStr.code c in
  (((97 <=? n) && (n <=? 122)) || ((65 <=? n) && (n <=? 90))
   || ((48 <=? n) && (n <=? 57)) || (n =? 95)
   || (n =? 170) || (n =? 178) || (n =? 179) || (n =? 181) || (n =? 185) || (n =? 186)
   || ((188 <=? n) && (n <=? 190))
   || ((192 <=? n) && (n <=? 214)) || ((216 <=? n) && (n <=? 246))
   || ((248 <=? n) && (n <=? 255)))%nat.

Definition is_hyphen (c : ascii) : bool := bool_decide (c = "-"%char).

(** [re.sub(cls+, repl, s)]: every maximal run of [cls] characters becomes
    [repl]; [in_run] tells that the run under way is already replaced. *)
Fixpoint sub_runs (cls : ascii -> bool) (repl : string) (in_run : bool) (s : string) : string :=
  match s with
  | "" => ""
  | String c s' =>
      if cls c then
        if in_run then sub_runs cls repl true s'
        else repl +:+ sub_runs cls repl true s'
      else String c (sub_runs cls repl false s')
  end.

(** [re.sub(r'\-\-+', '-', s)]: a run of two hyphens or more becomes one. *)
Fixpoint sub_hyphen_runs (in_run : bool) (s : string) : string :=
  match s with
  | "" => ""
  | String c s' =>
      if is_hyphen c then
        if in_run then sub_hyphen_runs true s'
        else match s' with
             | String c' _ =>
                 if is_hyphen c' then "-" +:+ sub_hyphen_runs true s'
                 else String c (sub_hyphen_runs false s')
             | "" => String c ""
             end
      else String c (sub_hyphen_runs false s')
  end.

(** The five lines that normalise the title. *)
Definition base_slug (title : string) : string :=
  let slug := PyStr.strip (PyStr.lower title) in
  let slug := sub_runs PyStr.isspace "-" false slug in
  let slug := sub_runs (fun c => negb (is_word_char c || is_hyphen c)) "" false slug in
  let slug := sub_hyphen_runs false slug in
  PyStr.strip_by is_hyphen slug.

(** [f"{original_slug}-{counter}"] *)
Definition numbered (original_slug : string) (counter : nat) : string :=
  original_slug +:+ "-" +:+ pretty counter.

(** The [while slug in self.metadata_cache] loop. A dictionary of [n]
    keys stops it within [n + 1] turns; [None] is out of fuel. *)
Fixpoint unique_slug (fuel : nat) (cache : list (string * PostMetadata))
    (original_slug slug : string) (counter : nat) : option string :=
  if Dict.mem slug cache then
    match fuel with
    | 0 => None
    | S fuel' =>
        unique_slug fuel' cache original_slug (numbered original_slug counter) (S counter)
    end
  else Some slug.

Definition create_slug (cache : list (string * PostMetadata)) (title : string) : option string :=
  let slug := base_slug title in
  unique_slug (S (length cache)) cache slug slug 1.

(** ** Video id validator: [BlogCMS.validate_youtube_id] *)

(** What is left of [s] after [n] characters of [cls], if it starts so. *)
Fixpoint match_class_times (cls : ascii -> bool) (n : nat) (s : string) : option string :=
  match n with
  | 0 => Some s
  | S n' =>
      match s with
      | "" => None
      | String c s' => if cls c then match_class_times cls n' s' else None
      end
  end.

(** [$] without [re.MULTILINE]: the end of the text, or just before a line
    feed that ends the text. *)
Definition at_dollar (rest : string) : bool :=
  bool_decide (rest = "") || bool_decide (rest = PyStr.nl).

(** [bool(re.match(r'^[a-zA-Z0-9_-]{11}$', youtube_id))] *)
Definition validate_youtube_id (youtube_id : string) : bool :=
  match match_class_times is_id_char 11 youtube_id with
  | Some rest => at_dollar rest
  | None => false
  end.

(** ** Listing page splicer *)

Fixpoint spaces (n : nat) : string :=
  match n with
  | 0 => ""
  | S n' => String " " (spaces n')
  end.

(** A text between double quotes. *)
Definition quoted (s : string) : string := PyStr.dq +:+ s +:+ PyStr.dq.

(** *** [textwrap.dedent]

    The whitespace-only lines are emptied, the margin is the longest
    common prefix of the leading blanks (spaces and tabs) of the other
    lines, and it is removed from every line that starts with it. *)

Definition is_blank (c : ascii) : bool :=
  bool_decide (c = " "%char) || bool_decide (c = ascii_of_nat 9).

Definition normalise_line (line : string) : string :=
  if decide (take_while is_blank line = line) then "" else line.

Fixpoint common_prefix (a b : string) : string :=
  match a, b with
  | String x a', String y b' => if decide (x = y) then String x (common_prefix a' b') else ""
  | _, _ => ""
  end.

(** The margin after the lines seen so far ([None] before the first
    non-blank one). *)
Definition margin_step (margin : option string) (line : string) : option string :=
  if decide (line = "") then margin
  else
    let indent := take_while is_blank line in
    match margin with
    | None => Some indent
    | Some m => Some (common_prefix m indent)
    end.

Definition strip_margin (margin line : string) : string :=
  if PyStr.startswith margin line then PyStr.drop (String.length margin) line else line.

Definition dedent (text : string) : string :=
  let lines := normalise_line <$> PyStr.split_lines text in
  match fold_left margin_step lines None with
  | Some margin => PyStr.join PyStr.nl (strip_margin margin <$> lines)
  | None => PyStr.join PyStr.nl lines
  end.

(** *** [BlogCMS.generate_blog_card_html] *)

Definition card_date_format : string := "%b %d, %Y".

Section Splicer.
Context `{lib : PyLib}.

(** [now] is what [datetime.datetime.now()] reads during the pass. *)
Definition formatted_date (now : datetime) (metadata : PostMetadata) : string :=
  match strptime (created_date metadata) stamp_format with
  | Some date_obj => strftime date_obj card_date_format
  | None => strftime now card_date_format
  end.

Definition card_html (now : datetime) (metadata : PostMetadata) : string :=
  let data_series :=
    if decide (series metadata = "") then ""
    else "data-series=" +:+ quoted (series metadata) in
  PyStr.join PyStr.nl
    [ "";
      spaces 8 +:+ "<div class=" +:+ quoted "blog-card" +:+ " " +:+ data_series +:+ ">";
      spaces 12 +:+ "<a href=" +:+ quoted (slug metadata +:+ ".html") +:+ ">";
      spaces 16 +:+ "<div class=" +:+ quoted "card-image-wrapper" +:+ ">";
      spaces 20 +:+ "<div class=" +:+ quoted "card-category" +:+ ">"
        +:+ post_type metadata +:+ "</div>";
      spaces 20 +:+ "<img loading=" +:+ quoted "lazy" +:+ " src="
        +:+ quoted (image_url metadata) +:+ " alt=" +:+ quoted (description metadata) +:+ ">";
      spaces 16 +:+ "</div>";
      spaces 16 +:+ "<div class=" +:+ quoted "card-content" +:+ ">";
      spaces 20 +:+ "<h3>" +:+ title metadata +:+ "</h3>";
      spaces 20 +:+ "<small class=" +:+ quoted "card-meta" +:+ ">By "
        +:+ author metadata +:+ " | " +:+ formatted_date now metadata +:+ "</small>";
      spaces 20 +:+ "<p>" +:+ description metadata +:+ "</p>";
      spaces 16 +:+ "</div>";
      spaces 12 +:+ "</a>";
      spaces 8 +:+ "</div>";
      spaces 8 ].

Definition generate_blog_card_html (now : datetime) (metadata : PostMetadata) : string :=
  PyStr.strip (dedent (card_html now metadata)).

(** *** [BlogCMS.update_blog_index] *)

(** [sorted(posts, key=lambda x: x.created_date, reverse=True)]: newest
    first, posts of one date in their given order. *)
Fixpoint insert_post (x : PostMetadata) (sorted : list PostMetadata) : list PostMetadata :=
  match sorted with
  | [] => [x]
  | y :: sorted' =>
      if String.ltb (created_date x) (created_date y) then y :: insert_post x sorted'
      else x :: sorted
  end.

Definition sorted_posts (posts : list PostMetadata) : list PostMetadata :=
  foldr insert_post [] posts.

Definition cards_html (now : datetime) (cache : list (string * PostMetadata)) : list string :=
  generate_blog_card_html now <$>
    filter (fun post => published post = true) (sorted_posts (Dict.values cache)).

End Splicer.

Definition insertion_marker : string := "<div class=" +:+ quoted "blog-grid" +:+ ">".
Definition end_marker : string := "</div>".

Definition cards_open : string :=
  PyStr.nl +:+ PyStr.nl +:+ spaces 16 +:+ "<!-- Auto-generated blog cards -->"
  +:+ PyStr.nl +:+ PyStr.nl.
Definition cards_separator : string := PyStr.nl +:+ PyStr.nl +:+ spaces 16.
Definition cards_close : string :=
  PyStr.nl +:+ PyStr.nl +:+ spaces 16 +:+ "<!-- End auto-generated cards -->"
  +:+ PyStr.nl +:+ PyStr.nl +:+ spaces 12.

(** The text put between the two boundaries. *)
Definition cards_block (cards : list string) : string :=
  cards_open +:+ PyStr.join cards_separator cards +:+ cards_close.

(** How [update_blog_index] ends: the page written, or the error logged
    before an early [return]. *)
Inductive index_outcome : Type :=
  | IndexUpdated
  | IndexNotFound        (* Blog index not found *)
  | MarkerNotFound       (* Insertion marker not found in index *)
  | GridStartNotFound    (* Could not find blog grid start *)
  | GridEndNotFound.     (* Could not find blog grid end *)

(** The text [update_blog_index] builds from the page and the cards, or
    the outcome of its early exit. *)
Definition regenerate (content : string) (cards : list string) : index_outcome + string :=
  if negb (PyStr.contains insertion_marker content) then inl MarkerNotFound
  else
    match PyStr.find insertion_marker content 0 with
    | None => inl GridStartNotFound
    | Some start_pos =>
        let start_pos := start_pos + String.length insertion_marker in
        match PyStr.find end_marker content start_pos with
        | None => inl GridEndNotFound
        | Some end_pos =>
            inr (PyStr.take start_pos content
                 +:+ cards_open
                 +:+ PyStr.join cards_separator cards
                 +:+ cards_close
                 +:+ PyStr.drop end_pos content)
        end
    end.

Definition update_blog_index `{lib : PyLib} (now : datetime) (w : World) : index_outcome * World :=
  match index_html w with
  | None => (IndexNotFound, w)
  | Some content =>
      let w := backup_index content w in
      match regenerate content (cards_html now (metadata_cache w)) with
      | inl failure => (failure, w)
      | inr new_content => (IndexUpdated, write_index new_content w)
      end
  end.

(** ** Inputs for evaluation

    A library instance with the answers Python gives on the texts of the
    examples: the tokens of two small documents and the reading of one
    time stamp, whose rendering it keeps as the date object. *)

Definition valueless_class_doc : string := "<div class>".

Definition described_doc : string :=
  "<meta name=" +:+ quoted "description" +:+ " content=" +:+ quoted "Hello" +:+ ">".

Definition example_feed (text : string) : list event :=
  if decide (text = valueless_class_doc) then [StartTag "div" [("class", None)]]
  else if decide (text = described_doc) then
    [StartTag "meta" [("name", Some "description"); ("content", Some "Hello")]]
  else [].

Definition example_lib : PyLib :=
  {| datetime := string;
     html_feed := example_feed;
     strptime := fun text fmt =>
       if decide (text = "2024-01-01 10:00:00" /\ fmt = stamp_format)
       then Some "Jan 01, 2024" else None;
     strftime := fun date_obj fmt => date_obj;
     md5_hexdigest := fun _ => "" |}.

Definition example_file (text : option string) : File :=
  {| stem := "hello"; file_text := text; file_mtime := Some "2024-03-05 12:00:00" |}.

(** A record of the slug [hello], authored or scanned before. *)
Definition example_post (scanned : bool) : PostMetadata :=
  {| slug := "hello"; title := "Hello"; author := "Jane"; post_type := "Article";
     description := "A post"; keywords := Some "study"; image_url := "hello.png";
     series := "cram_and_cry"; youtube_id := "";
     created_date := "2024-01-01 10:00:00"; modified_date := "2024-01-01 10:00:00";
     published := true; view_count := 7; file_hash := "";
     indexed_from_file := scanned |}.

Definition example_world (scanned : bool) (text : option string) : World :=
  {| metadata_cache := [("hello", example_post scanned)];
     metadata_file := Some [("hello", example_post scanned)];
     metadata_backups := [];
     blog_files := [example_file text; mkFile "index" (Some "") (Some "")];
     index_html := Some "<html></html>";
     index_backups := [] |}.

Definition example_page : string := insertion_marker +:+ "</div>".

(** A site of one published post and a listing page with an empty grid. *)
Definition example_site : World :=
  {| metadata_cache := [("hello", example_post false)];
     metadata_file := None;
     metadata_backups := [];
     blog_files := [];
     index_html := Some example_page;
     index_backups := [] |}.

(** Every character of [s] is in [cls]. *)
Fixpoint all_chars (cls : ascii -> bool) (s : string) : bool :=
  match s with
  | "" => true
  | String c s' => cls c && all_chars cls s'
  end.

(** The slug tried in turn [i] of the [create_slug] loop. *)
Definition candidate (original_slug : string) (i : nat) : string :=
  match i with
  | 0 => original_slug
  | S _ => numbered original_slug i
  end.

(** ** Further operations of the CMS *)

(** [attrs_dict.get(k, '')] is [None]: the attribute is there without a
    value. *)
Definition valueless (k : string) (attrs : list (string * option string)) : bool :=
  bool_decide (Dict.get k (Dict.of_pairs attrs) = Some None).

(** The start tags on which a membership test meets [None]: a [div]
    with a valueless [class], an [iframe] with a valueless [src]. *)
Definition unreadable_tag (e : event) : bool :=
  match e with
  | StartTag tag attrs =>
      (bool_decide (tag = "div") && valueless "class" attrs)
      || (bool_decide (tag = "iframe") && valueless "src" attrs)
  | _ => false
  end.

(** The depth counter agrees with the content flag. *)
Definition depth_agrees (p : BlogPostParser) : Prop :=
  if in_content p then (1 <= content_depth p)%Z else content_depth p = 0%Z.

Definition post_types : list string := ["Article"; "Poster"; "Video"].

(** *** [BlogCMS.index_existing_files] *)

Record IndexCounts : Type := mkIndexCounts {
  indexed_count : nat;
  skipped_count : nat;
  failed_count : nat
}.

Section IndexNew.
Context `{lib : PyLib}.

(** One turn of the [for file_path in html_files] loop. *)
Definition index_file (st : list (string * PostMetadata) * IndexCounts) (file_path : File)
  : list (string * PostMetadata) * IndexCounts :=
  let '(cache, counts) := st in
  let slug := stem file_path in
  if Dict.mem slug cache then
    (cache, mkIndexCounts (indexed_count counts) (S (skipped_count counts))
              (failed_count counts))
  else
    match parse_html_file file_path with
    | Some metadata =>
        (Dict.set slug metadata cache,
         mkIndexCounts (S (indexed_count counts)) (skipped_count counts)
           (failed_count counts))
    | None =>
        (cache, mkIndexCounts (indexed_count counts) (skipped_count counts)
                  (S (failed_count counts)))
    end.

Definition index_loop (files : list File) (st : list (string * PostMetadata) * IndexCounts)
  : list (string * PostMetadata) * IndexCounts :=
  fold_left index_file files st.

(** [index_existing_files]; the blog directory exists since the
    constructor creates it. *)
Definition index_existing_files (w : World) : World * IndexCounts :=
  let '(cache, counts) :=
    index_loop (html_files w) (metadata_cache w, mkIndexCounts 0 0 0) in
  let w := set_cache cache w in
  ((if decide (0 < indexed_count counts) then save_metadata w else w), counts).

End IndexNew.

(** A site with one document and an empty store. *)
Definition example_new_site (text : option string) : World :=
  {| metadata_cache := [];
     metadata_file := None;
     metadata_backups := [];
     blog_files := [example_file text; mkFile "index" (Some "") (Some "")];
     index_html := None;
     index_backups := [] |}.

(** Every record is stored under its own slug. *)
Definition keyed_by_slug (cache : list (string * PostMetadata)) : Prop :=
  forall k m, Dict.get k cache = Some m -> slug m = k.

(** *** The characters of a slug *)

(** What [re.sub(r'[^\w\-]+', '', s)] keeps. *)
Definition is_slug_char (c : ascii) : bool := is_word_char c || is_hyphen c.

(** A character that [str.lower] leaves as it is. *)
Definition is_lowered (c : ascii) : bool := bool_decide (PyStr.lower_char c = c).

(** The shape that [base_slug] gives: slug characters in lower case, no
    hyphen at either end and no two hyphens in a row. *)
Definition slug_shaped (s : string) : Prop :=
  all_chars (fun c => is_slug_char c && is_lowered c) s = true
  /\ (forall t, s <> String "-" t)
  /\ (forall t, s <> t +:+ "-")
  /\ PyStr.contains "--" s = false.

(** *** Order of the listing *)

(** [x] is not older than [y]: the comparison of [sorted] on the
    creation dates, as texts. *)
Definition not_older (x y : PostMetadata) : Prop :=
  String.ltb (created_date x) (created_date y) = false.

(** A listing page with the opening marker and no closing tag. *)
Definition unclosed_page : string := "<body>" +:+ insertion_marker.

Definition unclosed_site : World :=
  {| metadata_cache := [("hello", example_post false)];
     metadata_file := None;
     metadata_backups := [];
     blog_files := [];
     index_html := Some unclosed_page;
     index_backups := [] |}.

(** A site whose only record is a draft. *)
Definition draft_post : PostMetadata :=
  {| slug := "draft"; title := "Draft"; author := "Jane"; post_type := "Article";
     description := "Not yet"; keywords := Some "study"; image_url := "draft.png";
     series := ""; youtube_id := "";
     created_date := "2024-02-01 09:00:00"; modified_date := "2024-02-01 09:00:00";
     published := false; view_count := 0; file_hash := "";
     indexed_from_file := false |}.

Definition draft_site : World :=
  {| metadata_cache := [("draft", draft_post)];
     metadata_file := None;
     metadata_backups := [];
     blog_files := [];
     index_html := Some example_page;
     index_backups := [] |}.

(** *** [BlogCMS.search_posts] *)

(** [Config.series_categories]: the display names of the series. *)
Definition series_categories : list (string * string) :=
  [ ("after_hours", "After Hours");
    ("cram_and_cry", "Cram & Cry Corners");
    ("food_for_heartbreak", "Food for the Broken Hearted");
    ("stressed_depressed", "Stressed, Depressed, & Touching Grass");
    ("commute_crisis", "The Great Commute Crisis") ].

(** [None.lower()] raises. *)
Inductive search_error : Type := AttributeError.

(** [series_categories.get(post.series, '') if post.series else ''] *)
Definition series_name (post : PostMetadata) : string :=
  if decide (series post = "") then ""
  else default "" (Dict.get (series post) series_categories).

(** The condition of the [if] in the loop; [or] stops at the first
    operand that holds, so the keywords are lowered only after the title
    and the description have failed. *)
Definition post_matches (query_lower : string) (post : PostMetadata)
  : search_error + bool :=
  if PyStr.contains query_lower (PyStr.lower (title post)) then inr true
  else if PyStr.contains query_lower (PyStr.lower (description post)) then inr true
  else
    match keywords post with
    | None => inl AttributeError
    | Some kw =>
        inr (PyStr.contains query_lower (PyStr.lower kw)
             || PyStr.contains query_lower (PyStr.lower (series_name post)))
    end.

Fixpoint search_loop (query_lower : string) (posts : list PostMetadata)
  : search_error + list PostMetadata :=
  match posts with
  | [] => inr []
  | post :: posts' =>
      match post_matches query_lower post with
      | inl e => inl e
      | inr hit =>
          match search_loop query_lower posts' with
          | inl e => inl e
          | inr results => inr (if hit then post :: results else results)
          end
      end
  end.

(** [search_posts(query)]; [typed] is what the user enters when the
    function is called without a query. *)
Definition search_posts (query typed : string) (cache : list (string * PostMetadata))
  : search_error + list PostMetadata :=
  let query := if decide (query = "") then PyStr.strip typed else query in
  if decide (query = "") then inr []
  else search_loop (PyStr.lower query) (Dict.values cache).

(** *** [BlogCMS.delete_post] *)

(** [del d[k]] *)
Definition dict_delete {V : Type} (k : string) (d : list (string * V)) : list (string * V) :=
  filter (fun kv => kv.1 <> k) d.

(** The state that [delete_post] works on: the CMS state and the copies
    of post files in the backup directory. *)
Record Site : Type := mkSite {
  site_world : World;
  post_backups : list File
}.

Inductive delete_outcome : Type :=
  | Deleted
  | PostNotFound
  | DeleteCancelled.

Definition remove_file (name : string) (w : World) : World :=
  mkWorld (metadata_cache w) (metadata_file w) (metadata_backups w)
    (filter (fun f => file_name f <> name) (blog_files w))
    (index_html w) (index_backups w).

(** [delete_post(slug)] called with a slug, that is from
    [if slug not in self.metadata_cache] on: the menu that an empty slug
    or [None] opens first is interactive and not modelled, and the
    properties of [delete_post] are about a slug that is not empty or
    about the steps after the guards. [confirmed] answers the prompt and
    [confirm_text] is the line entered at the last one. *)
Definition delete_post `{lib : PyLib} (now : datetime) (slug : string)
    (confirmed : bool) (confirm_text : string) (s : Site) : delete_outcome * Site :=
  let w := site_world s in
  if negb (Dict.mem slug (metadata_cache w)) then (PostNotFound, s)
  else if negb confirmed then (DeleteCancelled, s)
  else if negb (bool_decide (PyStr.strip confirm_text = "DELETE")) then (DeleteCancelled, s)
  else
    let name := slug +:+ ".html" in
    let found := filter (fun f => file_name f = name) (blog_files w) in
    let backups := found ++ post_backups s in
    let w := remove_file name w in
    let w := set_cache (dict_delete slug (metadata_cache w)) w in
    let w := save_metadata w in
    let w := (update_blog_index now w).2 in
    (Deleted, mkSite w backups).

(** A site for the examples of deletion. *)
Definition example_deletion_site : Site :=
  mkSite (example_world false (Some "night bus")) [].

(** A scanned record whose keywords are [None]. *)
Definition keywordless_post : PostMetadata :=
  {| slug := "bare"; title := "Bare"; author := "The Team"; post_type := "Article";
     description := "No keywords"; keywords := None; image_url := placeholder_image;
     series := ""; youtube_id := "";
     created_date := "2024-03-05 12:00:00"; modified_date := "2024-03-05 12:00:00";
     published := true; view_count := 0; file_hash := "";
     indexed_from_file := true |}.

(** *** [BlogCMS.load_template] and [BlogCMS.generate_post_html] *)

(** The template paths of [CMSConfig]. *)
Record TemplateConfig : Type := mkTemplateConfig {
  article_template : string;
  poster_template : string;
  video_template : string
}.

Definition default_templates : TemplateConfig :=
  {| article_template := "templates/_template_article.html";
     poster_template := "templates/_template_poster.html";
     video_template := "templates/_template_video.html" |}.

(** What [open] and [read] find at a path. *)
Inductive file_state : Type :=
  | Readable (text : string)
  | Unreadable.   (* there, but [open] or [read] raises: PermissionError,
                     IsADirectoryError, UnicodeDecodeError, ... *)

Inductive render_error : Type :=
  | UnknownPostType     (* ValueError: Unknown post type *)
  | TemplateNotFound    (* FileNotFoundError: Template not found *)
  | TemplateUnreadable  (* the exception of [open] or [read] that
                           [except FileNotFoundError] lets through *)
  | NoneReplacement.    (* TypeError: replace() argument 2 must be str, not None *)

Definition template_mapping (config : TemplateConfig) : list (string * string) :=
  [ ("Article", article_template config);
    ("Poster", poster_template config);
    ("Video", video_template config) ].

(** [files] gives the state of the files by path; a path that is not a
    key is a file that does not exist. *)
Definition load_template (config : TemplateConfig) (files : list (string * file_state))
    (post_type : string) : render_error + string :=
  match Dict.get post_type (template_mapping config) with
  | None => inl UnknownPostType
  | Some template_path =>
      if decide (template_path = "") then inl UnknownPostType
      else match Dict.get template_path files with
           | Some (Readable text) => inr text
           | Some Unreadable => inl TemplateUnreadable
           | None => inl TemplateNotFound
           end
  end.

(** The [for placeholder, value in replacements.items()] loop. *)
Fixpoint replace_all (replacements : list (string * option string)) (html_content : string)
  : render_error + string :=
  match replacements with
  | [] => inr html_content
  | (placeholder, value) :: replacements' =>
      match value with
      | Some v => replace_all replacements' (PyStr.replace placeholder v html_content)
      | None => inl NoneReplacement
      end
  end.

Definition replacements `{lib : PyLib} (now : datetime) (metadata : PostMetadata)
    (content : string) : list (string * option string) :=
  [ ("{TITLE}", Some (title metadata));
    ("{DESCRIPTION}", Some (description metadata));
    ("{KEYWORDS}", keywords metadata);
    ("{SLUG}", Some (slug metadata));
    ("{IMAGE_URL}", Some (image_url metadata));
    ("{AUTHOR}", Some (author metadata));
    ("{POST_DATE}", Some (formatted_date now metadata));
    ("{CONTENT}", Some content);
    ("{YOUTUBE_ID}", Some (youtube_id metadata)) ].

Definition generate_post_html `{lib : PyLib} (config : TemplateConfig)
    (files : list (string * file_state)) (now : datetime)
    (metadata : PostMetadata) (content : string) : render_error + string :=
  match load_template config files (post_type metadata) with
  | inl e => inl e
  | inr template => replace_all (replacements now metadata content) template
  end.

(** No character of [s] is an opening brace. *)
Definition brace_free (s : string) : bool :=
  all_chars (fun c => negb (bool_decide (c = "{"%char))) s.

Definition example_template_files : list (string * file_state) :=
  [ ("templates/_template_article.html", Readable "<article>{CONTENT}</article>");
    ("templates/_template_poster.html", Readable "<main>plain</main>");
    ("templates/_template_video.html", Unreadable) ].

Definition poster_draft : PostMetadata :=
  mkPost "draft" "Draft" "Jane" "Poster" "Not yet" (Some "study") "draft.png" "" ""
    "2024-02-01 09:00:00" "2024-02-01 09:00:00" false 0 "" false.
(** * Properties *)

(** ** Text operations *)

Lemma startswith_spec (p : string) : forall s,
  PyStr.startswith p s = true <-> exists r, s = p +:+ r.
Proof.
  induction p as [|a p IH]; intros s; simpl.
  - split; [by exists s|done].
  - destruct s as [|b s]; simpl.
    + split; [done|]. intros [r Hr]. by simpl in Hr.
    + case_decide as Hab.
      * subst b. rewrite IH. split; intros [r Hr]; exists r; simpl in *; congruence.
      * split; [done|]. intros [r Hr]. simpl in Hr. congruence.
Qed.

(** [p in s] holds exactly when [p] is a substring of [s]. *)
Lemma contains_spec (p s : string) :
  PyStr.contains p s = true <-> exists a b, s = a +:+ p +:+ b.
Proof.
  induction s as [|c s IH]; simpl.
  - rewrite orb_false_r, startswith_spec. split.
    + intros [r Hr]. by exists "", r.
    + intros (a & b & Hab). destruct a; [by exists b|done].
  - rewrite orb_true_iff, IH, startswith_spec. split.
    + intros [[r Hr]|(a & b & Hab)].
      * by exists "", r.
      * exists (String c a), b. simpl. by rewrite Hab.
    + intros (a & b & Hab). destruct a as [|c' a]; simpl in Hab.
      * left. by exists b.
      * right. exists a, b. congruence.
Qed.

Lemma length_app_string (a b : string) :
  String.length (a +:+ b) = String.length a + String.length b.
Proof. induction a; simpl; congruence. Qed.

Lemma string_app_empty_r (a : string) : a +:+ "" = a.
Proof. induction a; simpl; congruence. Qed.

Lemma string_app_assoc (a b c : string) : (a +:+ b) +:+ c = a +:+ b +:+ c.
Proof. induction a; simpl; congruence. Qed.

Lemma length_take (n : nat) : forall s,
  String.length (PyStr.take n s) = n `min` String.length s.
Proof. induction n as [|n IH]; intros [|c s]; simpl; auto. Qed.

Lemma length_drop (n : nat) : forall s,
  String.length (PyStr.drop n s) = String.length s - n.
Proof. induction n as [|n IH]; intros [|c s]; simpl; auto. Qed.

Lemma drop_drop (a : nat) : forall b s,
  PyStr.drop b (PyStr.drop a s) = PyStr.drop (a + b) s.
Proof.
  induction a as [|a IH]; intros b s; simpl; [done|].
  destruct s; [by destruct b|apply IH].
Qed.

Lemma drop_app_le (n : nat) : forall a b,
  n <= String.length a -> PyStr.drop n (a +:+ b) = PyStr.drop n a +:+ b.
Proof.
  induction n as [|n IH]; intros a b Hn; simpl; [done|].
  destruct a as [|c a]; simpl in *; [lia|]. apply IH. lia.
Qed.

Lemma take_app_le (n : nat) : forall a b,
  n <= String.length a -> PyStr.take n (a +:+ b) = PyStr.take n a.
Proof.
  induction n as [|n IH]; intros a b Hn; simpl; [done|].
  destruct a as [|c a]; simpl in *; [lia|]. f_equal. apply IH. lia.
Qed.

Lemma take_all (n : nat) : forall s, String.length s <= n -> PyStr.take n s = s.
Proof.
  induction n as [|n IH]; intros [|c s] Hn; simpl in *; try done; [lia|].
  f_equal. apply IH. lia.
Qed.

Lemma drop_all (n : nat) : forall s, String.length s <= n -> PyStr.drop n s = "".
Proof.
  induction n as [|n IH]; intros [|c s] Hn; simpl in *; try done; [lia|].
  apply IH. lia.
Qed.

Lemma startswith_take (p : string) : forall s,
  PyStr.startswith p s = true <-> PyStr.take (String.length p) s = p.
Proof.
  induction p as [|a p IH]; intros s; simpl; [done|].
  destruct s as [|b s]; [done|].
  case_decide as Hab.
  - subst b. rewrite IH. split; [by intros ->|congruence].
  - split; [done|congruence].
Qed.

(** Whether [p] starts at offset [q] depends on the text up to the end
    of that occurrence only. *)
Lemma startswith_drop_agree (p s s' : string) (q n : nat) :
  q + String.length p <= n ->
  PyStr.take n s = PyStr.take n s' ->
  PyStr.startswith p (PyStr.drop q s) = PyStr.startswith p (PyStr.drop q s').
Proof.
  intros Hn Heq.
  assert (Htake : forall t : string,
            PyStr.take (String.length p) (PyStr.drop q t)
            = PyStr.take (String.length p) (PyStr.drop q (PyStr.take n t))).
  { clear -Hn. revert n Hn. induction q as [|q IH]; intros n Hn t; simpl.
    - revert n Hn t. generalize (String.length p). clear.
      induction n as [|k IH]; intros n Hn t; simpl; [done|].
      destruct n as [|n]; [lia|]. destruct t; simpl; [done|].
      f_equal. apply IH. lia.
    - destruct n as [|n]; [lia|]. destruct t; simpl; [done|]. apply IH. lia. }
  apply eq_true_iff_eq. rewrite !startswith_take.
  by rewrite (Htake s), (Htake s'), Heq.
Qed.

Lemma startswith_length (p : string) : forall s,
  PyStr.startswith p s = true -> String.length p <= String.length s.
Proof.
  induction p as [|a p IH]; intros [|b s]; simpl; try done; [lia|].
  case_decide; [|done]. intros Hs%IH. lia.
Qed.

Lemma find_from_first (p : string) : forall s i j,
  PyStr.find_from p s i = Some j ->
  exists k,
    j = i + k /\ k <= String.length s
    /\ PyStr.startswith p (PyStr.drop k s) = true
    /\ forall k', k' < k -> PyStr.startswith p (PyStr.drop k' s) = false.
Proof.
  induction s as [|c s IH]; intros i j; simpl.
  - destruct (PyStr.startswith p "") eqn:Hp; [|done].
    intros [= <-]. exists 0. split_and!; [lia|done..|]. intros k' Hk'. lia.
  - destruct (PyStr.startswith p (String c s)) eqn:Hp.
    + intros [= <-]. exists 0. split_and!; [lia|simpl; lia|done|].
      intros k' Hk'. lia.
    + intros (k & -> & Hk & Hat & Hbefore)%IH.
      exists (S k). split_and!; [lia|simpl; lia|done|].
      intros [|k'] Hk'; [done|]. simpl. apply Hbefore. lia.
Qed.

Lemma find_from_found (p : string) : forall s i k,
  k <= String.length s ->
  PyStr.startswith p (PyStr.drop k s) = true ->
  exists j, PyStr.find_from p s i = Some j /\ j <= i + k.
Proof.
  induction s as [|c s IH]; intros i k Hk Hat; simpl in *.
  - replace k with 0 in Hat by lia. simpl in Hat. rewrite Hat.
    exists i. split; [done|lia].
  - destruct (PyStr.startswith p (String c s)) eqn:Hp.
    + exists i. split; [done|lia].
    + destruct k as [|k]; simpl in Hat; [congruence|].
      destruct (IH (S i) k) as (j & Hj & Hle); [lia|done|].
      exists j. split; [done|lia].
Qed.

Lemma find_first (p s : string) (start j : nat) :
  PyStr.find p s start = Some j ->
  start <= j <= String.length s
  /\ PyStr.startswith p (PyStr.drop j s) = true
  /\ forall q, start <= q < j -> PyStr.startswith p (PyStr.drop q s) = false.
Proof.
  unfold PyStr.find. case_decide as Hstart; [|done].
  intros (k & -> & Hk & Hat & Hbefore)%find_from_first.
  rewrite length_drop in Hk. rewrite drop_drop in Hat.
  split_and!; [lia..|done|].
  intros q Hq. specialize (Hbefore (q - start) ltac:(lia)).
  rewrite drop_drop in Hbefore. by replace (start + (q - start)) with q in Hbefore by lia.
Qed.

Lemma find_found (p s : string) (start q : nat) :
  start <= q <= String.length s ->
  PyStr.startswith p (PyStr.drop q s) = true ->
  exists j, PyStr.find p s start = Some j /\ j <= q.
Proof.
  intros Hq Hat. unfold PyStr.find. rewrite decide_True by lia.
  destruct (find_from_found p (PyStr.drop start s) start (q - start))
    as (j & Hj & Hle).
  - rewrite length_drop. lia.
  - rewrite drop_drop. by replace (start + (q - start)) with q by lia.
  - exists j. split; [done|lia].
Qed.

Lemma contains_find (p s : string) :
  PyStr.contains p s = true <-> is_Some (PyStr.find p s 0).
Proof.
  unfold PyStr.find. rewrite decide_True by lia. simpl.
  generalize 0. induction s as [|c s IH]; intros i; simpl.
  - rewrite orb_false_r. destruct (PyStr.startswith p "").
    + split; [by eexists|done].
    + split; [done|by intros [? ?]].
  - destruct (PyStr.startswith p (String c s)); simpl; [|apply IH].
    split; [by eexists|done].
Qed.

(** An occurrence of [p] in [s] at offset [q]. *)
Lemma contains_at (p s : string) :
  PyStr.contains p s = true
  <-> exists q, q <= String.length s /\ PyStr.startswith p (PyStr.drop q s) = true.
Proof.
  rewrite contains_find. split.
  - intros [j (Hj & Hat & _)%find_first]. exists j. split; [lia|done].
  - intros (q & Hq & Hat).
    destruct (find_found p s 0 q) as (j & Hj & _); [lia|done|by eexists].
Qed.

Lemma startswith_app_r (p : string) : forall s t,
  PyStr.startswith p s = true -> PyStr.startswith p (s +:+ t) = true.
Proof.
  induction p as [|a p IH]; intros [|b s] t; simpl; try done.
  case_decide; [apply IH|done].
Qed.

Lemma drop_app_length (a b : string) : PyStr.drop (String.length a) (a +:+ b) = b.
Proof. induction a; simpl; congruence. Qed.

Lemma take_app_length (a b : string) : PyStr.take (String.length a) (a +:+ b) = a.
Proof. induction a; simpl; congruence. Qed.
(** ** Series classifier *)

Lemma max_by_value_first_max (rest : list (string * nat)) : forall best,
  exists l1 l2,
    best :: rest = l1 ++ max_by_value best rest :: l2
    /\ Forall (fun x => x.2 < (max_by_value best rest).2) l1
    /\ Forall (fun x => x.2 <= (max_by_value best rest).2) l2.
Proof.
  induction rest as [|kv rest IH]; intros best; simpl.
  - exists [], []. repeat split; constructor.
  - destruct (IH (if decide (best.2 < kv.2) then kv else best)) as (l1 & l2 & Heq & Hlt & Hle).
    set (r := max_by_value (if decide (best.2 < kv.2) then kv else best) rest) in *.
    case_decide as Hcmp.
    + (* the later key takes over *)
      exists (best :: l1), l2. split; [by rewrite Heq|]. split; [|done].
      constructor; [|done].
      destruct l1 as [|x l1]; injection Heq as Hr Hrest.
      * rewrite <- Hr. lia.
      * apply Forall_cons in Hlt as [Hx _]. subst x. lia.
    + destruct l1 as [|x l1]; injection Heq as Hr Hrest.
      * exists [], (kv :: rest). rewrite <- Hr. repeat split; [constructor|].
        constructor; [lia|]. by rewrite Hr, Hrest.
      * apply Forall_cons in Hlt as [Hx Hl1]. subst x.
        exists (best :: kv :: l1), l2. rewrite Hrest. repeat split; [|done].
        constructor; [done|]. constructor; [lia|done].
Qed.

Lemma filter_app_cons_inv {A} (P : A -> Prop) `{!forall x, Decision (P x)}
    (l : list A) : forall f1 x f2,
  filter P l = f1 ++ x :: f2 ->
  exists l1 l2, l = l1 ++ x :: l2 /\ filter P l1 = f1 /\ filter P l2 = f2.
Proof.
  induction l as [|a l IH]; intros f1 x f2 Hf.
  - by destruct f1.
  - rewrite filter_cons in Hf. case_decide as Ha.
    + destruct f1 as [|b f1]; injection Hf as -> Hf.
      * exists [], l. by rewrite filter_nil.
      * destruct (IH _ _ _ Hf) as (l1 & l2 & -> & <- & <-).
        exists (b :: l1), l2. by rewrite filter_cons_True.
    + destruct (IH _ _ _ Hf) as (l1 & l2 & -> & <- & <-).
      exists (a :: l1), l2. by rewrite filter_cons_False.
Qed.

Lemma score_series_nil table text :
  score_series table text = [] ->
  forall sp, sp ∈ table -> pattern_score text sp.2 = 0.
Proof.
  unfold score_series. intros Hnil sp Hin.
  assert (Hmem : (sp.1, pattern_score text sp.2) ∈
            ((fun sp => (sp.1, pattern_score text sp.2)) <$> table)).
  { by apply (list_elem_of_fmap_2 (fun sp => (sp.1, pattern_score text sp.2))). }
  destruct (decide (0 < pattern_score text sp.2)) as [Hpos|]; [|lia].
  assert (Hf : (sp.1, pattern_score text sp.2) ∈ @nil (string * nat)).
  { rewrite <- Hnil. by apply list_elem_of_filter. }
  by apply elem_of_nil in Hf.
Qed.

(** The winner of [classify] on any table: the first of the series with
    the highest positive score. *)
Lemma classify_first_max table text :
  (classify table text = ""
   /\ forall sp, sp ∈ table -> pattern_score text sp.2 = 0)
  \/ (exists before ps after,
        table = before ++ (classify table text, ps) :: after
        /\ 0 < pattern_score text ps
        /\ Forall (fun sp => pattern_score text sp.2 < pattern_score text ps) before
        /\ Forall (fun sp => pattern_score text sp.2 <= pattern_score text ps) after).
Proof.
  unfold classify.
  destruct (score_series table text) as [|kv rest] eqn:Hs.
  - left. split; [done|]. by apply score_series_nil.
  - right.
    destruct (max_by_value_first_max rest kv) as (f1 & f2 & Heq & Hlt & Hle).
    set (r := max_by_value kv rest) in *.
    rewrite <- Hs in Heq. unfold score_series in Heq.
    assert (Hpos : 0 < r.2).
    { assert (Hin : r ∈ f1 ++ r :: f2) by (apply elem_of_app; right; left).
      rewrite <- Heq in Hin. by apply list_elem_of_filter in Hin as [? _]. }
    apply filter_app_cons_inv in Heq as (s1 & s2 & Hmap & Hf1 & Hf2).
    apply fmap_app_inv in Hmap as (t1 & t2' & -> & Hcons & Htable).
    symmetry in Hcons.
    apply fmap_cons_inv in Hcons as (sp & t2 & Hr & -> & ->).
    rewrite Hr in Hpos, Hlt, Hle. simpl in *.
    exists t1, sp.2, t2. rewrite Hr. simpl. split; [by destruct sp|].
    split; [done|]. split.
    + apply Forall_forall. intros x Hx.
      destruct (decide (0 < pattern_score text x.2)) as [Hxpos|]; [|lia].
      assert (Hxin : (x.1, pattern_score text x.2) ∈ f1).
      { rewrite <- Hf1. apply list_elem_of_filter. split; [done|].
        by apply (list_elem_of_fmap_2 (fun sp => (sp.1, pattern_score text sp.2))). }
      by apply (proj1 (Forall_forall _ _) Hlt) in Hxin.
    + apply Forall_forall. intros x Hx.
      destruct (decide (0 < pattern_score text x.2)) as [Hxpos|]; [|lia].
      assert (Hxin : (x.1, pattern_score text x.2) ∈ f2).
      { rewrite <- Hf2. apply list_elem_of_filter. split; [done|].
        by apply (list_elem_of_fmap_2 (fun sp => (sp.1, pattern_score text sp.2))). }
      by apply (proj1 (Forall_forall _ _) Hle) in Hxin.
Qed.

Lemma NoDup_keys_agree {A} (l : list (string * A)) k v v' :
  NoDup l.*1 -> (k, v) ∈ l -> (k, v') ∈ l -> v = v'.
Proof.
  induction l as [|[k0 v0] l IH]; simpl.
  - intros _ Hin. by apply elem_of_nil in Hin.
  - intros [Hk Hnd]%NoDup_cons Hin%elem_of_cons Hin'%elem_of_cons.
    destruct Hin as [Hin|Hin], Hin' as [Hin'|Hin']; simplify_eq; auto.
    + exfalso. apply Hk. by apply (list_elem_of_fmap_2 fst _ (k0, v')).
    + exfalso. apply Hk. by apply (list_elem_of_fmap_2 fst _ (k0, v)).
Qed.

Lemma series_patterns_keys : NoDup series_patterns.*1 /\ "" ∉ series_patterns.*1.
Proof.
  split.
  - by apply (bool_decide_unpack (NoDup series_patterns.*1)).
  - by apply (bool_decide_unpack ("" ∉ series_patterns.*1)).
Qed.

(** The count of the code is the count of the description. *)
Lemma match_count_pattern_score (text : string) (patterns : list string) (n : nat) :
  match_count text patterns n <-> n = pattern_score text patterns.
Proof.
  unfold pattern_score. split.
  - induction 1 as [|p ps n Hp _ IH|p ps n Hp _ IH]; [done| |].
    + rewrite filter_cons_True by (apply contains_spec; exact Hp). simpl. by rewrite IH.
    + rewrite filter_cons_False; [done|]. intros Hc. apply Hp. by apply contains_spec.
  - intros ->. induction patterns as [|p ps IH]; [constructor|].
    destruct (decide (PyStr.contains p text = true)) as [Hp|Hp].
    + rewrite filter_cons_True by done. simpl.
      apply match_count_hit; [by apply contains_spec|done].
    + rewrite filter_cons_False by done.
      apply match_count_miss; [|done]. intros Hc. apply Hp. by apply contains_spec.
Qed.

Lemma series_patterns_distinct : Forall (fun sp => NoDup sp.2) series_patterns.
Proof.
  by apply (bool_decide_unpack (Forall (fun sp => NoDup sp.2) series_patterns)).
Qed.

(** The classifier on three texts: a tie between [cram_and_cry] ([exam])
    and [food_for_heartbreak] ([eat] in [great]) goes to the series
    declared first; capitals are lowered before the search; a pattern
    may span the title and the content only across the space that joins
    them; a text without a pattern has no series. *)
Lemma detect_series_examples :
  detect_series_from_content "The Great Exam" "" (Some "") = "cram_and_cry"
  /\ detect_series_from_content "Bus and TRAIN" "" None = "commute_crisis"
  /\ detect_series_from_content "After" "Hours" (Some "") = "after_hours"
  /\ detect_series_from_content "ni" "ght" (Some "") = ""
  /\ detect_series_from_content "Hello" "world" None = "".
Proof. by vm_compute. Qed.

(** C4. [detect_series_from_content] is a function of the lowercased
    text made of its three inputs and of the fixed table, whose pattern
    lists have no pattern twice. The score of a series is the number of
    its patterns that occur as substrings of that text. When every
    series has score 0 the result is empty; otherwise the result is the
    series of the highest score, the earliest declared of those that
    reach it; and a series of score 0 is never the result. *)
Theorem detect_series_first_highest (title content : string) (keywords : option string) :
  let text := PyStr.lower (title +:+ " " +:+ content +:+ " " +:+ PyStr.format keywords) in
  let result := detect_series_from_content title content keywords in
  (forall title' content' keywords',
      PyStr.lower (title' +:+ " " +:+ content' +:+ " " +:+ PyStr.format keywords') = text ->
      detect_series_from_content title' content' keywords' = result)
  /\ Forall (fun sp => NoDup sp.2) series_patterns
  /\ ((forall sp, sp ∈ series_patterns -> match_count text sp.2 0) -> result = "")
  /\ ((exists sp n, sp ∈ series_patterns /\ match_count text sp.2 n /\ 0 < n) ->
      exists before ps n after,
        series_patterns = before ++ (result, ps) :: after
        /\ match_count text ps n
        /\ 0 < n
        /\ Forall (fun sp => exists m, match_count text sp.2 m /\ m < n) before
        /\ Forall (fun sp => exists m, match_count text sp.2 m /\ m <= n) after)
  /\ (forall sp, sp ∈ series_patterns -> match_count text sp.2 0 -> result <> sp.1).
Proof.
  intros text result. subst result.
  unfold detect_series_from_content, text_to_search. fold text.
  destruct series_patterns_keys as [Hnodup Hnonempty].
  split; [by intros ? ? ? ->|]. split; [apply series_patterns_distinct|].
  destruct (classify_first_max series_patterns text)
    as [[Hempty Hzero]|(before & ps & after & Htable & Hpos & Hbefore & Hafter)].
  - split; [done|]. split.
    + intros (sp & n & Hin & Hn & Hlt). apply Hzero in Hin.
      apply match_count_pattern_score in Hn. lia.
    + intros sp Hin _ Heq. apply Hnonempty.
      rewrite <- Hempty, Heq. by apply (list_elem_of_fmap_2 fst).
  - assert (Hwin : (classify series_patterns text, ps) ∈ series_patterns).
    { rewrite Htable at 2. apply elem_of_app. right. left. }
    split.
    + intros Hzero. specialize (Hzero _ Hwin). simpl in Hzero.
      apply match_count_pattern_score in Hzero. lia.
    + split.
      * intros _. exists before, ps, (pattern_score text ps), after.
        split_and!; [done|by apply match_count_pattern_score|done| |].
        -- eapply Forall_impl; [exact Hbefore|]. intros sp Hsp.
           exists (pattern_score text sp.2).
           split; [by apply match_count_pattern_score|done].
        -- eapply Forall_impl; [exact Hafter|]. intros sp Hsp.
           exists (pattern_score text sp.2).
           split; [by apply match_count_pattern_score|done].
      * intros [s ps'] Hin Hzero Heq. simpl in *.
        apply match_count_pattern_score in Hzero.
        rewrite Heq in Hwin.
        assert (ps = ps'); [|subst; lia].
        by apply (NoDup_keys_agree series_patterns s).
Qed.

(** ** Dictionaries *)

Lemma dict_get_set_eq {V} (k : string) (v : V) (d : list (string * V)) :
  Dict.get k (Dict.set k v d) = Some v.
Proof.
  induction d as [|[k' v'] d IH]; simpl.
  - by rewrite decide_True.
  - destruct (decide (k = k')) as [->|Hne]; simpl.
    + by rewrite decide_True.
    + by rewrite decide_False.
Qed.

Lemma dict_get_set_ne {V} (k k' : string) (v : V) (d : list (string * V)) :
  k <> k' -> Dict.get k' (Dict.set k v d) = Dict.get k' d.
Proof.
  intros Hne. induction d as [|[k0 v0] d IH]; simpl.
  - by rewrite decide_False.
  - destruct (decide (k = k0)) as [->|Hk]; simpl.
    + by rewrite !decide_False.
    + destruct (decide (k' = k0)); [done|apply IH].
Qed.

Lemma dict_mem_keys {V} (k : string) (d : list (string * V)) :
  Dict.mem k d = true <-> k ∈ Dict.keys d.
Proof.
  unfold Dict.mem, Dict.keys. rewrite bool_decide_eq_true.
  induction d as [|[k' v'] d IH]; simpl.
  - split; [by intros [? ?]|by intros ?%elem_of_nil].
  - rewrite elem_of_cons. destruct (decide (k = k')) as [->|Hne].
    + split; [by left|by eexists].
    + rewrite IH. split; [by right|]. by intros [?|?].
Qed.

(** ** Corpus indexer *)

Section IndexerFacts.
Context `{lib : PyLib}.

Lemma reindex_loop_cons original f files st :
  reindex_loop original (f :: files) st
  = reindex_loop original files (reindex_file original st f).
Proof. done. Qed.

Lemma reindex_file_step original cache counts f :
  reindex_file original (cache, counts) f
  = match parse_html_file f with
    | Some metadata =>
        (Dict.set (stem f) (preserve_original (Dict.get (stem f) original) metadata) cache,
         mkCounts (S (updated_count counts)) (error_count counts))
    | None => (cache, mkCounts (updated_count counts) (S (error_count counts)))
    end.
Proof. done. Qed.

Lemma reindex_loop_absent original files : forall cache counts k,
  k ∉ stem <$> files ->
  Dict.get k (reindex_loop original files (cache, counts)).1 = Dict.get k cache.
Proof.
  induction files as [|f files IH]; intros cache counts k Hk; [done|].
  rewrite fmap_cons in Hk. apply not_elem_of_cons in Hk as [Hne Hk].
  rewrite reindex_loop_cons, reindex_file_step.
  destruct (parse_html_file f) as [m|]; rewrite IH by done; [|done].
  by apply dict_get_set_ne.
Qed.

(** A document that scans well leaves the merged record at its slug. *)
Lemma reindex_loop_scanned original files : forall cache counts f fresh,
  NoDup (stem <$> files) ->
  f ∈ files ->
  parse_html_file f = Some fresh ->
  Dict.get (stem f) (reindex_loop original files (cache, counts)).1
  = Some (preserve_original (Dict.get (stem f) original) fresh).
Proof.
  induction files as [|g files IH]; intros cache counts f fresh Hnd Hin Hparse.
  - by apply elem_of_nil in Hin.
  - rewrite fmap_cons in Hnd. apply NoDup_cons in Hnd as [Hg Hnd].
    rewrite reindex_loop_cons, reindex_file_step.
    apply elem_of_cons in Hin as [->|Hin].
    + rewrite Hparse.
      rewrite (reindex_loop_absent original files _ _ (stem g) Hg).
      apply dict_get_set_eq.
    + destruct (parse_html_file g); by apply IH.
Qed.

(** A document whose scan fails leaves its slug as it was. *)
Lemma reindex_loop_failed original files : forall cache counts f,
  NoDup (stem <$> files) ->
  f ∈ files ->
  parse_html_file f = None ->
  Dict.get (stem f) (reindex_loop original files (cache, counts)).1
  = Dict.get (stem f) cache.
Proof.
  induction files as [|g files IH]; intros cache counts f Hnd Hin Hparse.
  - by apply elem_of_nil in Hin.
  - rewrite fmap_cons in Hnd. apply NoDup_cons in Hnd as [Hg Hnd].
    rewrite reindex_loop_cons, reindex_file_step.
    apply elem_of_cons in Hin as [->|Hin].
    + rewrite Hparse. by apply (reindex_loop_absent original files).
    + assert (Hne : stem g <> stem f).
      { intros Heq. apply Hg. rewrite Heq. by apply (list_elem_of_fmap_2 stem). }
      destruct (parse_html_file g); rewrite IH by done; [|done].
      by apply dict_get_set_ne.
Qed.

Lemma reindex_loop_counts original files : forall cache counts,
  (reindex_loop original files (cache, counts)).2
  = mkCounts (updated_count counts + length (filter scan_succeeds files))
             (error_count counts + length (filter scan_fails files)).
Proof.
  induction files as [|g files IH]; intros cache [u e].
  - unfold reindex_loop. simpl. f_equal; lia.
  - rewrite reindex_loop_cons, reindex_file_step.
    destruct (parse_html_file g) as [m|] eqn:Hg; rewrite IH; simpl.
    + rewrite (filter_cons_True scan_succeeds)
        by (unfold scan_succeeds; rewrite Hg; eauto).
      rewrite (filter_cons_False scan_fails)
        by (unfold scan_fails; by rewrite Hg).
      simpl. f_equal; lia.
    + rewrite (filter_cons_False scan_succeeds)
        by (unfold scan_succeeds; rewrite Hg; by intros [? ?]).
      rewrite (filter_cons_True scan_fails) by done.
      simpl. f_equal; lia.
Qed.

Lemma html_files_stems w :
  NoDup (stem <$> blog_files w) -> NoDup (stem <$> html_files w).
Proof.
  unfold html_files. generalize (blog_files w). intros l.
  induction l as [|f l IH]; [done|].
  rewrite fmap_cons. intros [Hf Hnd]%NoDup_cons.
  rewrite filter_cons. case_decide; [|by apply IH].
  rewrite fmap_cons. apply NoDup_cons. split; [|by apply IH].
  intros [g [Hg Hin]]%list_elem_of_fmap_1. apply Hf. rewrite Hg.
  apply (list_elem_of_fmap_2 stem). by apply list_elem_of_filter in Hin as [_ ?].
Qed.

(** What a confirmed pass leaves in the cache and on disk. *)
Lemma reindex_files_cache w :
  metadata_cache (reindex_files true w).1
  = (reindex_loop (metadata_cache w) (html_files w)
       (metadata_cache w, mkCounts 0 0)).1
  /\ (reindex_files true w).2
     = (reindex_loop (metadata_cache w) (html_files w)
          (metadata_cache w, mkCounts 0 0)).2
  /\ (0 < updated_count (reindex_files true w).2 ->
      metadata_file (reindex_files true w).1
      = Some (metadata_cache (reindex_files true w).1))
  /\ (updated_count (reindex_files true w).2 = 0 ->
      metadata_file (reindex_files true w).1 = metadata_file w).
Proof.
  unfold reindex_files. simpl.
  assert (Hc : metadata_cache (backup_metadata w) = metadata_cache w)
    by (unfold backup_metadata; by destruct (metadata_file w)).
  assert (Hf : html_files (backup_metadata w) = html_files w)
    by (unfold html_files, backup_metadata; by destruct (metadata_file w)).
  assert (Hm : metadata_file (backup_metadata w) = metadata_file w).
  { unfold backup_metadata. by destruct (metadata_file w) eqn:Hw. }
  rewrite Hc, Hf.
  destruct (reindex_loop _ _ _) as [cache counts]. simpl.
  case_decide; simpl; repeat split; try done; lia.
Qed.

End IndexerFacts.

(** C1. After a confirmed reindex pass, a document that scans well and
    whose slug had an authored record (one not indexed from a file) is
    stored with the creation date, author, series and view count of that
    record, and with every other field as the fresh scan gives it. *)
Theorem reindex_keeps_authored_fields `{lib : PyLib} (w : World) (f : File)
    (fresh prior : PostMetadata) :
  NoDup (stem <$> blog_files w) ->
  f ∈ html_files w ->
  parse_html_file f = Some fresh ->
  Dict.get (stem f) (metadata_cache w) = Some prior ->
  indexed_from_file prior = false ->
  exists entry,
    Dict.get (stem f) (metadata_cache (reindex_files true w).1) = Some entry
    /\ created_date entry = created_date prior
    /\ author entry = author prior
    /\ series entry = series prior
    /\ view_count entry = view_count prior
    /\ slug entry = slug fresh
    /\ title entry = title fresh
    /\ post_type entry = post_type fresh
    /\ description entry = description fresh
    /\ keywords entry = keywords fresh
    /\ image_url entry = image_url fresh
    /\ youtube_id entry = youtube_id fresh
    /\ modified_date entry = modified_date fresh
    /\ file_hash entry = file_hash fresh
    /\ published entry = published fresh
    /\ indexed_from_file entry = indexed_from_file fresh.
Proof.
  intros Hnd Hin Hparse Hprior Hauthored.
  destruct (reindex_files_cache w) as (-> & _).
  erewrite reindex_loop_scanned by eauto using html_files_stems.
  rewrite Hprior. unfold preserve_original. rewrite Hauthored. simpl.
  eexists. split; [done|]. by repeat split.
Qed.

Lemma reindex_keeps_authored_fields_witness :
  exists entry,
    Dict.get "hello"
      (metadata_cache
         (reindex_files (lib:=example_lib) true (example_world false (Some "night bus"))).1)
    = Some entry
    /\ created_date entry = "2024-01-01 10:00:00"
    /\ author entry = "Jane"
    /\ series entry = "cram_and_cry"
    /\ view_count entry = 7%Z
    /\ description entry = ""
    /\ keywords entry = Some default_keywords.
Proof.
  destruct (reindex_keeps_authored_fields (lib:=example_lib)
              (example_world false (Some "night bus"))
              (example_file (Some "night bus"))
              (default (example_post true)
                 (parse_html_file (lib:=example_lib) (example_file (Some "night bus"))))
              (example_post false))
    as (entry & Hget & Hc & Ha & Hs & Hv & _ & _ & _ & Hd & Hk & _).
  - by apply (bool_decide_unpack _).
  - apply list_elem_of_filter. split; [by vm_compute|left].
  - reflexivity.
  - reflexivity.
  - reflexivity.
  - exists entry. repeat split; done.
Defined.

(** C5. After a confirmed reindex pass, a document that scans well and
    whose slug had a record indexed from a file is stored as the fresh
    scan gives it, but for the view count, which is the prior one. *)
Theorem reindex_replaces_scanned_record `{lib : PyLib} (w : World) (f : File)
    (fresh prior : PostMetadata) :
  NoDup (stem <$> blog_files w) ->
  f ∈ html_files w ->
  parse_html_file f = Some fresh ->
  Dict.get (stem f) (metadata_cache w) = Some prior ->
  indexed_from_file prior = true ->
  exists entry,
    Dict.get (stem f) (metadata_cache (reindex_files true w).1) = Some entry
    /\ view_count entry = view_count prior
    /\ slug entry = slug fresh
    /\ title entry = title fresh
    /\ author entry = author fresh
    /\ post_type entry = post_type fresh
    /\ description entry = description fresh
    /\ keywords entry = keywords fresh
    /\ image_url entry = image_url fresh
    /\ series entry = series fresh
    /\ youtube_id entry = youtube_id fresh
    /\ created_date entry = created_date fresh
    /\ modified_date entry = modified_date fresh
    /\ published entry = published fresh
    /\ file_hash entry = file_hash fresh
    /\ indexed_from_file entry = indexed_from_file fresh.
Proof.
  intros Hnd Hin Hparse Hprior Hscanned.
  destruct (reindex_files_cache w) as (-> & _).
  erewrite reindex_loop_scanned by eauto using html_files_stems.
  rewrite Hprior. unfold preserve_original. rewrite Hscanned. simpl.
  eexists. split; [done|]. by repeat split.
Qed.

Lemma reindex_replaces_scanned_record_witness :
  exists entry,
    Dict.get "hello"
      (metadata_cache
         (reindex_files (lib:=example_lib) true (example_world true (Some "night bus"))).1)
    = Some entry
    /\ view_count entry = 7%Z
    /\ author entry = "The Team"
    /\ series entry = ""
    /\ created_date entry = "2024-03-05 12:00:00".
Proof.
  destruct (reindex_replaces_scanned_record (lib:=example_lib)
              (example_world true (Some "night bus"))
              (example_file (Some "night bus"))
              (default (example_post true)
                 (parse_html_file (lib:=example_lib) (example_file (Some "night bus"))))
              (example_post true))
    as (entry & Hget & Hv & _ & _ & Ha & _ & _ & _ & _ & Hs & _ & Hc & _).
  - by apply (bool_decide_unpack _).
  - apply list_elem_of_filter. split; [by vm_compute|left].
  - reflexivity.
  - reflexivity.
  - reflexivity.
  - exists entry. repeat split; done.
Defined.

(** C10. In a confirmed reindex pass, a document whose scan fails leaves
    the entry of its slug as it was (present and equal, or absent); the
    pass counts one error per failed document and one update per scanned
    one; the store written at the end, which the pass writes when it has
    updated a document, holds that same entry, and otherwise the metadata
    file stays as it was. *)
Theorem reindex_failure_keeps_entry `{lib : PyLib} (w : World) (f : File) :
  NoDup (stem <$> blog_files w) ->
  f ∈ html_files w ->
  parse_html_file f = None ->
  Dict.get (stem f) (metadata_cache (reindex_files true w).1)
  = Dict.get (stem f) (metadata_cache w)
  /\ error_count (reindex_files true w).2 = length (filter scan_fails (html_files w))
  /\ 0 < error_count (reindex_files true w).2
  /\ updated_count (reindex_files true w).2 = length (filter scan_succeeds (html_files w))
  /\ (0 < updated_count (reindex_files true w).2 ->
      exists stored,
        metadata_file (reindex_files true w).1 = Some stored
        /\ Dict.get (stem f) stored = Dict.get (stem f) (metadata_cache w))
  /\ (updated_count (reindex_files true w).2 = 0 ->
      metadata_file (reindex_files true w).1 = metadata_file w).
Proof.
  intros Hnd Hin Hparse.
  destruct (reindex_files_cache w) as (Hcache & Hcounts & Hsaved & Hkept).
  assert (Hentry : Dict.get (stem f) (metadata_cache (reindex_files true w).1)
                   = Dict.get (stem f) (metadata_cache w)).
  { rewrite Hcache. by apply reindex_loop_failed; [apply html_files_stems|..]. }
  rewrite Hcounts, reindex_loop_counts in *. simpl in *.
  repeat split; try done.
  - assert (Hf : f ∈ filter scan_fails (html_files w))
      by (by apply list_elem_of_filter).
    destruct (filter scan_fails (html_files w)); [by apply elem_of_nil in Hf|simpl; lia].
  - intros Hpos. eexists. split; [by apply Hsaved|done].
Qed.

Lemma reindex_failure_keeps_entry_witness :
  Dict.get "hello"
    (metadata_cache (reindex_files (lib:=example_lib) true (example_world false None)).1)
  = Some (example_post false)
  /\ error_count (reindex_files (lib:=example_lib) true (example_world false None)).2 = 1.
Proof.
  destruct (reindex_failure_keeps_entry (lib:=example_lib)
              (example_world false None) (example_file None))
    as (Hentry & Herr & _).
  - by apply (bool_decide_unpack _).
  - apply list_elem_of_filter. split; [by vm_compute|left].
  - reflexivity.
  - split; [exact Hentry|exact Herr].
Defined.

(** ** Tag scanner and metadata extractor *)

Lemma run_events_app (pre post : list event) : forall p,
  run_events p (pre ++ post)
  = bind (run_events p pre) (fun q => run_events q post).
Proof.
  induction pre as [|e pre IH]; intros p; simpl; [done|].
  destruct (handle_event p e) as [err|q]; simpl; [done|apply IH].
Qed.

(** A [div] whose [class] has no value raises in the start tag handler. *)
Lemma handle_starttag_valueless_class attrs self :
  Dict.get "class" (Dict.of_pairs attrs) = Some None ->
  handle_starttag "div" attrs self = inl TypeError.
Proof.
  intros Hcls. unfold handle_starttag, attr_is, attr_get_default.
  rewrite Hcls. by simpl.
Qed.

(** C6 (refuted). A readable document in which a [div] start tag carries
    a [class] attribute without a value is not extracted: the handler
    raises, and [parse_html_file] answers [None] as it does for an
    unreadable file. *)
Theorem parse_html_file_fails_on_valueless_class `{lib : PyLib} (f : File) (text : string)
    (pre post : list event) (attrs : list (string * option string)) (p : BlogPostParser) :
  file_text f = Some text ->
  html_feed text = pre ++ StartTag "div" attrs :: post ->
  run_events new_parser pre = inr p ->
  Dict.get "class" (Dict.of_pairs attrs) = Some None ->
  parse_html_file f = None.
Proof.
  intros Htext Hfeed Hpre Hcls.
  unfold parse_html_file, parse_html_file_body.
  rewrite Htext, Hfeed, run_events_app, Hpre. simpl.
  by rewrite handle_starttag_valueless_class.
Qed.

Lemma parse_html_file_fails_on_valueless_class_witness :
  file_text (example_file (Some valueless_class_doc)) = Some valueless_class_doc
  /\ parse_html_file (lib:=example_lib) (example_file (Some valueless_class_doc)) = None.
Proof.
  split; [reflexivity|].
  apply (parse_html_file_fails_on_valueless_class (lib:=example_lib)
           (example_file (Some valueless_class_doc)) valueless_class_doc
           [] [] [("class", None)] new_parser); reflexivity.
Defined.

(** What the extractor puts in [description]: the meta tags count only
    when the scanned body is longer than 200 characters. *)
Lemma parse_html_file_description `{lib : PyLib} (f : File) (text : string)
    (parser : BlogPostParser) (m : PostMetadata) :
  file_text f = Some text ->
  run_events new_parser (html_feed text) = inr parser ->
  parse_html_file f = Some m ->
  description m
  = if decide (200 < String.length (p_content parser)) then
      or_else (meta_get "description" "" parser)
        (or_else (meta_get "og:description" "" parser)
           (PyStr.take 200 (p_content parser) +:+ "..."))
    else p_content parser.
Proof.
  intros Htext Hrun. unfold parse_html_file, parse_html_file_body.
  rewrite Htext, Hrun. simpl.
  destruct (if decide (_ = "") then _ else _) as [err|created]; simpl; [done|].
  by intros [= <-].
Qed.

(** C3 (refuted). A document whose only token is a meta description
    [Hello] has an empty scanned body, and its extracted description is
    that empty body, not the meta value. *)
Theorem description_ignores_meta_on_short_body `{lib : PyLib} (f : File) (text stamp : string) :
  file_text f = Some text ->
  file_mtime f = Some stamp ->
  html_feed text
  = [StartTag "meta" [("name", Some "description"); ("content", Some "Hello")]] ->
  exists m parser,
    parse_html_file f = Some m
    /\ run_events new_parser (html_feed text) = inr parser
    /\ meta_get "description" "" parser = Some "Hello"
    /\ description m = "".
Proof.
  intros Htext Hstamp Hfeed.
  unfold parse_html_file, parse_html_file_body.
  rewrite Htext, Hfeed, Hstamp. simpl. eexists _, _. by repeat split.
Qed.

Lemma description_ignores_meta_on_short_body_witness :
  exists m,
    parse_html_file (lib:=example_lib) (example_file (Some described_doc)) = Some m
    /\ description m = "".
Proof.
  destruct (description_ignores_meta_on_short_body (lib:=example_lib)
              (example_file (Some described_doc)) described_doc "2024-03-05 12:00:00")
    as (m & parser & Hm & _ & _ & Hd); [reflexivity..|].
  by exists m.
Defined.

(** ** Video id validator *)

Lemma match_class_times_spec cls (n : nat) : forall s rest,
  match_class_times cls n s = Some rest
  <-> exists id, s = id +:+ rest /\ String.length id = n /\ all_chars cls id = true.
Proof.
  induction n as [|n IH]; intros s rest; simpl.
  - split.
    + intros [= ->]. by exists "".
    + intros (id & -> & Hlen & _). by destruct id.
  - destruct s as [|c s].
    + split; [done|]. intros (id & Hid & Hlen & _). by destruct id.
    + destruct (cls c) eqn:Hc.
      * rewrite IH. split.
        -- intros (id & -> & Hlen & Hall). exists (String c id). simpl.
           by rewrite Hc, Hlen, Hall.
        -- intros (id & Hid & Hlen & Hall). destruct id as [|c' id]; [done|].
           simpl in *. injection Hid as -> ->. injection Hlen as Hlen.
           apply andb_true_iff in Hall as [_ Hall]. by exists id.
      * split; [done|]. intros (id & Hid & Hlen & Hall).
        destruct id as [|c' id]; [done|]. simpl in *. injection Hid as -> _.
        by rewrite Hc in Hall.
Qed.

(** What the validator accepts: eleven id characters, alone or followed
    by one line feed. *)
Lemma validate_youtube_id_accepts (s : string) :
  validate_youtube_id s = true
  <-> exists id,
        String.length id = 11 /\ all_chars is_id_char id = true
        /\ (s = id \/ s = id +:+ PyStr.nl).
Proof.
  unfold validate_youtube_id, at_dollar. split.
  - destruct (match_class_times is_id_char 11 s) as [rest|] eqn:Hm; [|done].
    apply match_class_times_spec in Hm as (id & -> & Hlen & Hall).
    rewrite orb_true_iff, !bool_decide_eq_true. intros [->| ->]; exists id.
    + repeat split; [done..|]. left. apply string_app_empty_r.
    + repeat split; [done..|]. by right.
  - intros (id & Hlen & Hall & Hs).
    assert (Hm : exists rest, (rest = "" \/ rest = PyStr.nl) /\ s = id +:+ rest).
    { destruct Hs as [->| ->]; [exists ""|exists PyStr.nl]; split; auto.
      by rewrite string_app_empty_r. }
    destruct Hm as (rest & Hrest & ->).
    assert (Hsome : match_class_times is_id_char 11 (id +:+ rest) = Some rest)
      by (apply match_class_times_spec; by exists id).
    rewrite Hsome, orb_true_iff, !bool_decide_eq_true. done.
Qed.

(** C8 (refuted). The validator accepts a text of twelve characters:
    eleven id characters and a line feed. *)
Theorem validate_youtube_id_accepts_trailing_newline :
  validate_youtube_id ("dQw4w9WgXcQ" +:+ PyStr.nl) = true
  /\ String.length ("dQw4w9WgXcQ" +:+ PyStr.nl) = 12
  /\ all_chars is_id_char ("dQw4w9WgXcQ" +:+ PyStr.nl) = false.
Proof. by vm_compute. Qed.

(** ** Slug allocator *)

Lemma candidate_inj (base : string) : Inj (=) (=) (candidate base).
Proof.
  assert (Hfresh : forall i, base <> numbered base (S i)).
  { intros i Heq. apply (f_equal String.length) in Heq.
    unfold numbered in Heq. rewrite !length_app_string in Heq. simpl in Heq. lia. }
  intros [|i] [|j] Heq; simpl in Heq; [done|by apply Hfresh in Heq| |].
  - symmetry in Heq. by apply Hfresh in Heq.
  - unfold numbered in Heq. apply (inj (String.app base)) in Heq.
    injection Heq as Heq. by apply (inj pretty) in Heq.
Qed.

(** The loop answers the first candidate that is not a key, given fuel
    for the candidates before it. *)
Lemma unique_slug_first_free cache base (k : nat) : forall i fuel,
  (forall j, i <= j < i + k -> Dict.mem (candidate base j) cache = true) ->
  Dict.mem (candidate base (i + k)) cache = false ->
  k <= fuel ->
  unique_slug fuel cache base (candidate base i) (S i) = Some (candidate base (i + k)).
Proof.
  induction k as [|k IH]; intros i fuel Hused Hfree Hfuel.
  - rewrite Nat.add_0_r in *. destruct fuel; simpl; by rewrite Hfree.
  - destruct fuel as [|fuel]; [lia|]. simpl.
    rewrite Hused by lia.
    replace (i + S k) with (S i + k) in * by lia.
    apply (IH (S i)); [|done|lia].
    intros j Hj. apply Hused. lia.
Qed.

(** Among the first [n + 1] candidates one is not a key of a dictionary
    of [n] entries, and there is a first such. *)
Lemma first_free_candidate (cache : list (string * PostMetadata)) base :
  exists k,
    k <= length cache
    /\ Dict.mem (candidate base k) cache = false
    /\ forall j, j < k -> Dict.mem (candidate base j) cache = true.
Proof.
  assert (Hsearch : forall n,
            (exists k, k <= n /\ Dict.mem (candidate base k) cache = false
                       /\ forall j, j < k -> Dict.mem (candidate base j) cache = true)
            \/ forall j, j <= n -> Dict.mem (candidate base j) cache = true).
  { induction n as [|n [(k & Hk & Hfree & Hused)|Hall]].
    - destruct (Dict.mem (candidate base 0) cache) eqn:H0.
      + right. intros j Hj. by replace j with 0 by lia.
      + left. exists 0. split_and!; [done..|]. intros j Hj. lia.
    - left. exists k. split_and!; [lia|done..].
    - destruct (Dict.mem (candidate base (S n)) cache) eqn:HS.
      + right. intros j Hj. destruct (decide (j = S n)) as [->|]; [done|].
        apply Hall. lia.
      + left. exists (S n). split_and!; [done..|]. intros j Hj. apply Hall. lia. }
  destruct (Hsearch (length cache)) as [Hk|Hall]; [done|exfalso].
  assert (Hle : length (candidate base <$> seq 0 (S (length cache)))
                <= length (Dict.keys cache)).
  { apply submseteq_length, NoDup_submseteq.
    - apply (@NoDup_fmap_2 _ _ _ (candidate_inj base)), NoDup_seq.
    - intros x [j [-> Hj%elem_of_seq]]%list_elem_of_fmap_1.
      apply dict_mem_keys, Hall. lia. }
  unfold Dict.keys in Hle. rewrite !length_fmap, length_seq in Hle. lia.
Qed.

(** [create_slug] always answers, with the first candidate that is free. *)
Lemma create_slug_first_free (cache : list (string * PostMetadata)) (title : string) :
  exists k,
    create_slug cache title = Some (candidate (base_slug title) k)
    /\ Dict.mem (candidate (base_slug title) k) cache = false
    /\ forall j, j < k -> Dict.mem (candidate (base_slug title) j) cache = true.
Proof.
  destruct (first_free_candidate cache (base_slug title)) as (k & Hk & Hfree & Hused).
  exists k. split_and!; [|done..].
  unfold create_slug.
  apply (unique_slug_first_free cache (base_slug title) k 0); [|done|lia].
  intros j Hj. apply Hused. lia.
Qed.

(** C9 (as stated, refuted). On an empty store the empty title gets the
    empty slug, which is not a hyphen followed by a number. *)
Lemma create_slug_empty_title_counterexample :
  ~ (exists N : nat, 0 < N /\ create_slug [] "" = Some ("-" +:+ pretty N)).
Proof. intros (N & _ & HN). vm_compute in HN. discriminate HN. Qed.

(** C9 (amended). The empty title has the empty base slug. While the
    empty slug is not a key of the store, [create_slug] answers it;
    once it is a key, the answer is a hyphen followed by the least
    positive number that makes a slug not in the store. *)
Theorem create_slug_empty_title (cache : list (string * PostMetadata)) :
  base_slug "" = ""
  /\ (Dict.mem "" cache = false -> create_slug cache "" = Some "")
  /\ (Dict.mem "" cache = true ->
      exists N : nat,
        0 < N
        /\ create_slug cache "" = Some ("-" +:+ pretty N)
        /\ Dict.mem ("-" +:+ pretty N) cache = false
        /\ forall M : nat, 0 < M < N -> Dict.mem ("-" +:+ pretty M) cache = true).
Proof.
  split; [done|].
  destruct (create_slug_first_free cache "") as (k & Hslug & Hfree & Hused).
  change (base_slug "") with "" in *.
  split.
  - intros Hmem. destruct k as [|k]; [done|].
    specialize (Hused 0 ltac:(lia)). simpl in Hused. congruence.
  - intros Hmem. destruct k as [|k]; [simpl in Hfree; congruence|].
    exists (S k). split_and!; [lia|done..|].
    intros [|M] HM; [lia|]. apply (Hused (S M)). lia.
Qed.

(** ** Listing page splicer *)

(** C7. When the listing page does not contain the opening marker,
    [update_blog_index] ends with the marker error after the backup copy
    and writes nothing: the page keeps its text, whatever the records. *)
Theorem update_blog_index_without_marker `{lib : PyLib} (now : datetime) (w : World)
    (content : string) :
  index_html w = Some content ->
  PyStr.contains insertion_marker content = false ->
  update_blog_index now w = (MarkerNotFound, backup_index content w)
  /\ index_html (update_blog_index now w).2 = Some content
  /\ metadata_cache (update_blog_index now w).2 = metadata_cache w
  /\ forall cards, regenerate content cards = inl MarkerNotFound.
Proof.
  intros Hpage Hmarker.
  assert (Hregen : forall cards, regenerate content cards = inl MarkerNotFound).
  { intros cards. unfold regenerate. by rewrite Hmarker. }
  unfold update_blog_index. rewrite Hpage, Hregen. simpl. by rewrite Hpage.
Qed.

Lemma update_blog_index_without_marker_witness :
  update_blog_index (lib:=example_lib) "" (example_world false None)
  = (MarkerNotFound, backup_index "<html></html>" (example_world false None))
  /\ index_html (update_blog_index (lib:=example_lib) "" (example_world false None)).2
     = Some "<html></html>".
Proof.
  destruct (update_blog_index_without_marker (lib:=example_lib) ""
              (example_world false None) "<html></html>") as (Hout & Hpage & _);
    [reflexivity..|].
  split; [exact Hout|exact Hpage].
Defined.

(** An evaluation with one published post: the second pass takes the
    first [</div>] of the first card for the closing marker and keeps the
    rest of that card after the new cards. *)
Example update_blog_index_twice_differs :
  let w1 := (update_blog_index (lib:=example_lib) "" example_site).2 in
  let w2 := (update_blog_index (lib:=example_lib) "" w1).2 in
  (update_blog_index (lib:=example_lib) "" example_site).1 = IndexUpdated
  /\ (update_blog_index (lib:=example_lib) "" w1).1 = IndexUpdated
  /\ metadata_cache w1 = metadata_cache example_site
  /\ index_html w1 <> index_html w2
  /\ (String.length <$> index_html w1) = Some 582
  /\ (String.length <$> index_html w2) = Some 917.
Proof. vm_compute. split_and!; done. Qed.

(** *** The text that [regenerate] builds *)

Lemma regenerate_shape (content : string) (cards : list string) (page : string) :
  regenerate content cards = inr page ->
  exists p e,
    PyStr.find insertion_marker content 0 = Some p
    /\ PyStr.find end_marker content (p + String.length insertion_marker) = Some e
    /\ page = PyStr.take (p + String.length insertion_marker) content
              +:+ cards_block cards +:+ PyStr.drop e content.
Proof.
  unfold regenerate.
  destruct (PyStr.contains insertion_marker content); cbn [negb]; [|done].
  destruct (PyStr.find insertion_marker content 0) as [p|]; [|done].
  destruct (PyStr.find end_marker content (p + String.length insertion_marker))
    as [e|] eqn:He; [|done].
  intros [= <-]. exists p, e. split_and!; [done..|].
  unfold cards_block. by rewrite !string_app_assoc.
Qed.

Lemma regenerate_from_positions (content : string) (cards : list string) (p e : nat) :
  PyStr.find insertion_marker content 0 = Some p ->
  PyStr.find end_marker content (p + String.length insertion_marker) = Some e ->
  regenerate content cards
  = inr (PyStr.take (p + String.length insertion_marker) content
         +:+ cards_block cards +:+ PyStr.drop e content).
Proof.
  intros Hp He. unfold regenerate.
  assert (Hc : PyStr.contains insertion_marker content = true)
    by (apply contains_find; by eexists).
  rewrite Hc, Hp, He. cbn [negb]. unfold cards_block. by rewrite !string_app_assoc.
Qed.

(** The opening marker is found at the same place in the regenerated
    page. *)
Lemma regenerate_keeps_marker (content block rest : string) (p : nat) :
  PyStr.find insertion_marker content 0 = Some p ->
  PyStr.find insertion_marker
    (PyStr.take (p + String.length insertion_marker) content +:+ block +:+ rest) 0
  = Some p.
Proof.
  intros (Hp & Hat & Hbefore)%find_first.
  set (start := p + String.length insertion_marker).
  set (page := PyStr.take start content +:+ block +:+ rest).
  assert (Hstart : start <= String.length content).
  { apply startswith_length in Hat. rewrite length_drop in Hat. unfold start. lia. }
  assert (Hlen : String.length (PyStr.take start content) = start)
    by (rewrite length_take; lia).
  assert (Hprefix : PyStr.take start page = PyStr.take start content).
  { unfold page. rewrite take_app_le by lia. apply take_all. lia. }
  assert (Hagree : forall q, q <= p ->
            PyStr.startswith insertion_marker (PyStr.drop q page)
            = PyStr.startswith insertion_marker (PyStr.drop q content)).
  { intros q Hq. apply (startswith_drop_agree _ _ _ q start); [unfold start; lia|done]. }
  destruct (find_found insertion_marker page 0 p) as (j & Hj & Hle).
  - unfold page. rewrite length_app_string, Hlen. unfold start. lia.
  - by rewrite Hagree.
  - rewrite Hj. f_equal.
    apply find_first in Hj as (_ & Hatj & _).
    destruct (decide (j = p)) as [|Hne]; [done|].
    rewrite Hagree, Hbefore in Hatj by lia. done.
Qed.

(** Once the cards hold a [</div>], regenerating the
    regenerated page with the same cards succeeds and gives a strictly
    longer text. *)
Lemma regenerate_again_grows (content : string) (cards : list string) (page1 : string) :
  regenerate content cards = inr page1 ->
  PyStr.contains end_marker (cards_block cards) = true ->
  exists page2,
    regenerate page1 cards = inr page2
    /\ String.length page1 < String.length page2.
Proof.
  intros (p & e & Hp & He & ->)%regenerate_shape Hblock.
  set (start := p + String.length insertion_marker) in *.
  set (block := cards_block cards) in *.
  set (rest := PyStr.drop e content).
  assert (Hstart : start <= String.length content).
  { apply find_first in He. lia. }
  assert (Hlen : String.length (PyStr.take start content) = start)
    by (rewrite length_take; lia).
  apply contains_at in Hblock as (o & Ho & Hat).
  assert (Hroom : o + String.length end_marker <= String.length block).
  { apply startswith_length in Hat. rewrite length_drop in Hat. lia. }
  set (head := PyStr.take start content) in *.
  assert (Hdrop : PyStr.drop start (head +:+ block +:+ rest) = block +:+ rest)
    by (rewrite <- Hlen; apply drop_app_length).
  assert (Htake : PyStr.take start (head +:+ block +:+ rest) = head)
    by (rewrite <- Hlen; apply take_app_length).
  destruct (find_found end_marker (head +:+ block +:+ rest) start (start + o))
    as (e' & He' & Hle).
  - rewrite !length_app_string, Hlen. lia.
  - rewrite <- drop_drop, Hdrop, drop_app_le by done.
    by apply startswith_app_r.
  - eexists. split.
    + apply regenerate_from_positions; [by apply regenerate_keeps_marker|exact He'].
    + fold start. rewrite Htake.
      rewrite !length_app_string, length_drop, !length_app_string, Hlen.
      fold block. change (String.length end_marker) with 6 in Hroom. lia.
Qed.

(** *** Every card holds a closing [div] *)

Lemma contains_app (p a s b : string) :
  PyStr.contains p s = true -> PyStr.contains p (a +:+ s +:+ b) = true.
Proof.
  rewrite !contains_spec. intros (x & y & ->).
  exists (a +:+ x), (y +:+ b). by rewrite !string_app_assoc.
Qed.

Lemma rev_onto_app (s : string) : forall acc,
  PyStr.rev_onto s acc = PyStr.rev s +:+ acc.
Proof.
  unfold PyStr.rev. induction s as [|c s IH]; intros acc; simpl; [done|].
  by rewrite (IH (String c acc)), (IH (String c "")), string_app_assoc.
Qed.

Lemma rev_cons (c : ascii) (s : string) :
  PyStr.rev (String c s) = PyStr.rev s +:+ String c "".
Proof. unfold PyStr.rev at 1. simpl. apply rev_onto_app. Qed.

Lemma rev_app (a b : string) : PyStr.rev (a +:+ b) = PyStr.rev b +:+ PyStr.rev a.
Proof.
  induction a as [|c a IH]; simpl.
  - by rewrite string_app_empty_r.
  - by rewrite !rev_cons, IH, string_app_assoc.
Qed.

Lemma rev_involutive (s : string) : PyStr.rev (PyStr.rev s) = s.
Proof.
  induction s as [|c s IH]; [done|]. by rewrite rev_cons, rev_app, IH.
Qed.

(** Stripping on the left stops at the latest at a character that is
    not stripped. *)
Lemma lstrip_by_keeps (f : ascii -> bool) (c : ascii) (t : string) :
  f c = false ->
  forall a, exists a', PyStr.lstrip_by f (a +:+ String c t) = a' +:+ String c t.
Proof.
  intros Hc. induction a as [|x a [a' IH]]; simpl.
  - exists "". by rewrite Hc.
  - destruct (f x); [by exists a'|by exists (String x a)].
Qed.

Lemma rstrip_by_keeps (f : ascii -> bool) (c : ascii) (t : string) :
  f c = false ->
  forall b, exists b', PyStr.rstrip_by f (t +:+ String c b) = t +:+ String c b'.
Proof.
  intros Hc b. unfold PyStr.rstrip_by.
  rewrite rev_app, rev_cons, string_app_assoc. simpl.
  destruct (lstrip_by_keeps f c (PyStr.rev t) Hc (PyStr.rev b)) as [b' ->].
  exists (PyStr.rev b').
  by rewrite rev_app, rev_cons, rev_involutive, string_app_assoc.
Qed.

Lemma strip_keeps_end_marker (s : string) :
  PyStr.contains end_marker s = true ->
  PyStr.contains end_marker (PyStr.strip s) = true.
Proof.
  rewrite !contains_spec. intros (a & b & ->).
  unfold PyStr.strip, PyStr.strip_by.
  destruct (lstrip_by_keeps PyStr.isspace "<" ("/div>" +:+ b) eq_refl a) as [a' Ha].
  change (a +:+ end_marker +:+ b) with (a +:+ String "<" ("/div>" +:+ b)).
  rewrite Ha.
  replace (a' +:+ String "<" ("/div>" +:+ b))
    with ((a' +:+ "</div") +:+ String ">" b) by (by rewrite string_app_assoc).
  destruct (rstrip_by_keeps PyStr.isspace ">" (a' +:+ "</div") eq_refl b) as [b' ->].
  exists a', b'. by rewrite string_app_assoc.
Qed.

Lemma split_lines_go_app (x y : string) : forall cur,
  PyStr.split_lines_go cur (x +:+ PyStr.nl +:+ y)
  = PyStr.split_lines_go cur x ++ PyStr.split_lines y.
Proof.
  induction x as [|c x IH]; intros cur; simpl.
  - reflexivity.
  - case_decide; by rewrite IH.
Qed.

Lemma join_cons (sep x : string) (l : list string) :
  l <> [] -> PyStr.join sep (x :: l) = x +:+ sep +:+ PyStr.join sep l.
Proof. by destruct l. Qed.

Lemma join_around (sep x : string) (l1 l2 : list string) :
  exists a b, PyStr.join sep (l1 ++ x :: l2) = a +:+ x +:+ b.
Proof.
  induction l1 as [|y l1 (a & b & IH)].
  - destruct l2 as [|z l2].
    + exists "", "". simpl. by rewrite string_app_empty_r.
    + exists "", (sep +:+ PyStr.join sep (z :: l2)). reflexivity.
  - exists (y +:+ sep +:+ a), b. rewrite <- app_comm_cons, join_cons.
    + by rewrite IH, !string_app_assoc.
    + by destruct l1.
Qed.

Lemma contains_join (p sep x : string) (l : list string) :
  x ∈ l -> PyStr.contains p x = true -> PyStr.contains p (PyStr.join sep l) = true.
Proof.
  intros (l1 & l2 & ->)%list_elem_of_split Hx.
  destruct (join_around sep x l1 l2) as (a & b & ->). by apply contains_app.
Qed.

Lemma common_prefix_startswith (a : string) : forall b,
  PyStr.startswith (common_prefix a b) b = true.
Proof.
  induction a as [|x a IH]; intros [|y b]; simpl; try done.
  case_decide; simpl; [|done]. subst. rewrite decide_True by done. apply IH.
Qed.

Lemma startswith_spaces (n : nat) : forall m,
  PyStr.startswith m (spaces n) = true ->
  m = spaces (String.length m) /\ String.length m <= n.
Proof.
  induction n as [|n IH]; intros [|c m]; simpl; try done.
  - split; [done|lia].
  - case_decide; [|done]. subst c. intros [Hm Hle]%IH.
    split; [by rewrite <- Hm|lia].
Qed.

(** The line that closes the card keeps its [</div>] whatever margin
    the other lines leave. *)
Lemma strip_margin_closing_line (margin : string) :
  PyStr.startswith margin (spaces 8) = true ->
  PyStr.contains end_marker (strip_margin margin (spaces 8 +:+ end_marker)) = true.
Proof.
  intros [-> Hle]%startswith_spaces.
  generalize dependent (String.length margin). intros k Hk.
  do 9 (destruct k as [|k]; [by vm_compute|]). simpl in Hk. lia.
Qed.

Lemma dedent_keeps_closing_line (x : string) :
  PyStr.contains end_marker
    (dedent (x +:+ PyStr.nl +:+ (spaces 8 +:+ end_marker) +:+ PyStr.nl +:+ spaces 8))
  = true.
Proof.
  unfold dedent, PyStr.split_lines. rewrite split_lines_go_app.
  change (PyStr.split_lines ((spaces 8 +:+ end_marker) +:+ PyStr.nl +:+ spaces 8))
    with [spaces 8 +:+ end_marker; spaces 8].
  rewrite fmap_app, fold_left_app.
  change (normalise_line <$> [spaces 8 +:+ end_marker; spaces 8])
    with [spaces 8 +:+ end_marker; ""].
  set (before := normalise_line <$> PyStr.split_lines_go "" x).
  assert (Hmargin : exists margin,
            fold_left margin_step [spaces 8 +:+ end_marker; ""]
              (fold_left margin_step before None) = Some margin
            /\ PyStr.startswith margin (spaces 8) = true).
  { destruct (fold_left margin_step before None) as [m|].
    - exists (common_prefix m (spaces 8)). split; [done|].
      apply common_prefix_startswith.
    - by exists (spaces 8). }
  destruct Hmargin as (margin & -> & Hm).
  rewrite fmap_app.
  apply (contains_join _ _ (strip_margin margin (spaces 8 +:+ end_marker))).
  - apply elem_of_app. right. simpl. left.
  - by apply strip_margin_closing_line.
Qed.

Lemma card_contains_end_marker `{lib : PyLib} (now : datetime) (metadata : PostMetadata) :
  PyStr.contains end_marker (generate_blog_card_html now metadata) = true.
Proof.
  unfold generate_blog_card_html. apply strip_keeps_end_marker.
  unfold card_html. cbn [PyStr.join].
  match goal with
  | |- context [dedent (?l0 +:+ _ +:+ ?l1 +:+ _ +:+ ?l2 +:+ _ +:+ ?l3 +:+ _ +:+ ?l4
                         +:+ _ +:+ ?l5 +:+ _ +:+ ?l6 +:+ _ +:+ ?l7 +:+ _ +:+ ?l8
                         +:+ _ +:+ ?l9 +:+ _ +:+ ?l10 +:+ _ +:+ ?l11 +:+ _ +:+ ?l12
                         +:+ _ +:+ ?l13 +:+ _ +:+ ?l14)] =>
      set (x := PyStr.join PyStr.nl [l0; l1; l2; l3; l4; l5; l6; l7; l8; l9; l10; l11; l12])
  end.
  match goal with
  | |- PyStr.contains _ (dedent ?t) = true =>
      replace t with (x +:+ PyStr.nl +:+ (spaces 8 +:+ end_marker) +:+ PyStr.nl +:+ spaces 8)
  end.
  - apply dedent_keeps_closing_line.
  - unfold x. cbn [PyStr.join]. by rewrite !string_app_assoc.
Qed.

(** *** The second pass *)

Lemma insert_post_elem (x y : PostMetadata) (l : list PostMetadata) :
  y ∈ insert_post x l <-> y = x \/ y ∈ l.
Proof.
  induction l as [|z l IH]; simpl.
  - rewrite list_elem_of_singleton. split; [by left|].
    by intros [?|?%elem_of_nil].
  - destruct (String.ltb _ _); rewrite !elem_of_cons; [rewrite IH|]; tauto.
Qed.

Lemma sorted_posts_elem (y : PostMetadata) (l : list PostMetadata) :
  y ∈ sorted_posts l <-> y ∈ l.
Proof.
  unfold sorted_posts. induction l as [|x l IH]; simpl; [done|].
  by rewrite insert_post_elem, elem_of_cons, IH.
Qed.

Lemma cards_block_contains_end_marker `{lib : PyLib} (now : datetime)
    (cache : list (string * PostMetadata)) (post : PostMetadata) :
  post ∈ Dict.values cache ->
  published post = true ->
  PyStr.contains end_marker (cards_block (cards_html now cache)) = true.
Proof.
  intros Hin Hpub. unfold cards_block. apply contains_app.
  apply (contains_join _ _ (generate_blog_card_html now post)).
  - unfold cards_html. apply list_elem_of_fmap_2, list_elem_of_filter.
    split; [done|]. by apply sorted_posts_elem.
  - apply card_contains_end_marker.
Qed.

Lemma regenerate_failure (content : string) (cards : list string) (failure : index_outcome) :
  regenerate content cards = inl failure -> failure <> IndexUpdated.
Proof.
  unfold regenerate.
  destruct (negb _); [by intros [= <-]|].
  destruct (PyStr.find insertion_marker content 0); [|by intros [= <-]].
  destruct (PyStr.find end_marker content _); [done|by intros [= <-]].
Qed.

Lemma update_blog_index_updated `{lib : PyLib} (now : datetime) (w : World)
    (content page : string) :
  index_html w = Some content ->
  regenerate content (cards_html now (metadata_cache w)) = inr page ->
  update_blog_index now w = (IndexUpdated, write_index page (backup_index content w)).
Proof.
  intros Hpage Hregen. unfold update_blog_index. rewrite Hpage.
  change (metadata_cache (backup_index content w)) with (metadata_cache w).
  by rewrite Hregen.
Qed.

Lemma update_blog_index_updated_inv `{lib : PyLib} (now : datetime) (w : World) :
  (update_blog_index now w).1 = IndexUpdated ->
  exists content page,
    index_html w = Some content
    /\ regenerate content (cards_html now (metadata_cache w)) = inr page.
Proof.
  unfold update_blog_index.
  destruct (index_html w) as [content|]; [|done].
  change (metadata_cache (backup_index content w)) with (metadata_cache w).
  destruct (regenerate content (cards_html now (metadata_cache w)))
    as [failure|page] eqn:Hregen.
  - intros Hout. simpl in Hout. subst failure. by apply regenerate_failure in Hregen.
  - intros _. by exists content, page.
Qed.

(** C2 (refuted), for every store with a published post: when a pass
    over a listing page succeeds, the same pass over its output succeeds
    too and writes a strictly longer page, so the two texts differ. *)
Theorem update_blog_index_second_pass_grows `{lib : PyLib} (now : datetime) (w : World)
    (post : PostMetadata) :
  post ∈ Dict.values (metadata_cache w) ->
  published post = true ->
  (update_blog_index now w).1 = IndexUpdated ->
  exists page1 page2,
    index_html (update_blog_index now w).2 = Some page1
    /\ metadata_cache (update_blog_index now w).2 = metadata_cache w
    /\ (update_blog_index now (update_blog_index now w).2).1 = IndexUpdated
    /\ index_html (update_blog_index now (update_blog_index now w).2).2 = Some page2
    /\ String.length page1 < String.length page2.
Proof.
  intros Hin Hpub (content & page1 & Hpage & Hfirst)%update_blog_index_updated_inv.
  destruct (regenerate_again_grows _ _ _ Hfirst) as (page2 & Hsecond & Hlen).
  { by apply (cards_block_contains_end_marker now _ post). }
  exists page1, page2.
  rewrite (update_blog_index_updated now w content page1) by done.
  rewrite (update_blog_index_updated now _ page1 page2) by done.
  by split_and!.
Qed.

Lemma update_blog_index_second_pass_grows_witness :
  exists page1 page2,
    index_html (update_blog_index (lib:=example_lib) "" example_site).2 = Some page1
    /\ index_html
         (update_blog_index (lib:=example_lib) ""
            (update_blog_index (lib:=example_lib) "" example_site).2).2 = Some page2
    /\ String.length page1 < String.length page2.
Proof.
  destruct (update_blog_index_second_pass_grows (lib:=example_lib) "" example_site
              (example_post false))
    as (page1 & page2 & H1 & _ & _ & H2 & Hlen).
  - left.
  - reflexivity.
  - reflexivity.
  - by exists page1, page2.
Defined.

(** * Further properties *)

(** ** The tag scanner on any event stream *)

Lemma handle_starttag_outcome (tag : string) (attrs : list (string * option string))
    (self : BlogPostParser) :
  if unreadable_tag (StartTag tag attrs)
  then handle_starttag tag attrs self = inl TypeError
  else exists p, handle_starttag tag attrs self = inr p.
Proof.
  unfold unreadable_tag, valueless, handle_starttag, attr_get_default, attr_is.
  destruct (decide (tag = "meta")) as [->|Hmeta].
  { simpl. repeat (destruct (PyStr.truthy _)); (eexists; reflexivity). }
  destruct (decide (tag = "title")) as [->|Htitle]; [simpl; (eexists; reflexivity)|].
  destruct (decide (tag = "span")) as [->|Hspan].
  { simpl. repeat case_bool_decide; simpl; rewrite ?andb_false_r;
      (eexists; reflexivity). }
  rewrite (bool_decide_eq_false_2 (tag = "span")) by done. simpl.
  destruct (decide (tag = "div")) as [->|Hdiv].
  { simpl. destruct (Dict.get "class" (Dict.of_pairs attrs)) as [[cls|]|]; simpl.
    - rewrite ?bool_decide_eq_false_2 by done. simpl.
      repeat (destruct (PyStr.contains _ _); simpl; [(eexists; reflexivity)|]).
      destruct (in_content self); (eexists; reflexivity).
    - by rewrite ?bool_decide_eq_true_2.
    - rewrite ?bool_decide_eq_false_2 by done. simpl.
      destruct (in_content self); (eexists; reflexivity). }
  rewrite (bool_decide_eq_false_2 (tag = "div")) by done. simpl.
  destruct (decide (tag = "iframe")) as [->|Hiframe].
  { simpl. destruct (Dict.get "src" (Dict.of_pairs attrs)) as [[src|]|]; simpl.
    - rewrite ?bool_decide_eq_false_2 by done. simpl.
      destruct (PyStr.contains _ _); simpl; [|rewrite andb_false_r; (eexists; reflexivity)].
      destruct (search_embed_id src); (eexists; reflexivity).
    - by rewrite ?bool_decide_eq_true_2.
    - rewrite ?bool_decide_eq_false_2 by done. simpl.
      rewrite andb_false_r. (eexists; reflexivity). }
  rewrite (bool_decide_eq_false_2 (tag = "iframe")) by done. simpl.
  rewrite andb_false_r. (eexists; reflexivity).
Qed.

Lemma handle_event_outcome (self : BlogPostParser) (e : event) :
  if unreadable_tag e
  then handle_event self e = inl TypeError
  else exists p, handle_event self e = inr p.
Proof.
  destruct e as [tag attrs|tag|data]; [apply handle_starttag_outcome|..];
    simpl; (eexists; reflexivity).
Qed.

Lemma run_events_outcome (events : list event) : forall self,
  if existsb unreadable_tag events
  then run_events self events = inl TypeError
  else exists p, run_events self events = inr p.
Proof.
  induction events as [|e events IH]; intros self; simpl.
  - by eexists.
  - pose proof (handle_event_outcome self e) as He.
    destruct (unreadable_tag e); simpl.
    + by rewrite He.
    + destruct He as [p ->]. apply IH.
Qed.

Lemma existsb_unreadable (events : list event) :
  (existsb unreadable_tag events = true
   <-> Exists (fun e => unreadable_tag e = true) events)
  /\ (existsb unreadable_tag events = false
      <-> Forall (fun e => unreadable_tag e = false) events).
Proof.
  induction events as [|e events [IHt IHf]]; simpl.
  - split; split; try done; by intros ?%Exists_nil.
  - rewrite Exists_cons, Forall_cons, orb_true_iff, orb_false_iff, IHt, IHf. done.
Qed.

(** X1. The scanner raises exactly when the stream holds a [div] start
    tag whose [class] has no value or an [iframe] start tag whose [src]
    has no value; the exception is then a [TypeError], and every other
    stream is scanned to the end. *)
Theorem run_events_raises_iff (events : list event) (self : BlogPostParser) :
  (Exists (fun e => unreadable_tag e = true) events
   <-> run_events self events = inl TypeError)
  /\ (Forall (fun e => unreadable_tag e = false) events
      <-> exists p, run_events self events = inr p).
Proof.
  destruct (existsb_unreadable events) as [Ht Hf].
  pose proof (run_events_outcome events self) as Hrun.
  rewrite <- Ht, <- Hf. destruct (existsb unreadable_tag events).
  - rewrite Hrun. split; split; try done. by intros [p ?].
  - destruct Hrun as [p ->]. split; split; try done. intros _. by exists p.
Qed.

(** ** What every extracted record satisfies *)

Lemma or_else_nonempty (a : option string) (d : string) : d <> "" -> or_else a d <> "".
Proof.
  unfold or_else. destruct a as [s|]; simpl; [|done].
  case_bool_decide; simpl; done.
Qed.

Lemma classify_in_table table text :
  classify table text = "" \/ classify table text ∈ table.*1.
Proof.
  destruct (classify_first_max table text)
    as [[Hempty _]|(before & ps & after & Htable & _)]; [by left|right].
  rewrite Htable at 2. rewrite fmap_app, fmap_cons.
  apply elem_of_app. right. left.
Qed.

(** X3. A record that [parse_html_file] returns has the stem of the file
    as slug, a title, author and image URL that are not empty, one of the
    three post types, a series that is empty or a key of the pattern
    table, no views, the creation date as modification date, and is
    published and marked as indexed from a file. *)
Theorem parse_html_file_record `{lib : PyLib} (f : File) (m : PostMetadata) :
  parse_html_file f = Some m ->
  slug m = stem f
  /\ title m <> ""
  /\ author m <> ""
  /\ image_url m <> ""
  /\ post_type m ∈ post_types
  /\ (series m = "" \/ series m ∈ series_patterns.*1)
  /\ view_count m = 0%Z
  /\ modified_date m = created_date m
  /\ published m = true
  /\ indexed_from_file m = true.
Proof.
  unfold parse_html_file, parse_html_file_body.
  destruct (file_text f) as [text|]; [|done].
  destruct (run_events new_parser (html_feed text)) as [e|parser]; [done|]. simpl.
  destruct (if decide (_ = "") then _ else _) as [e|created]; simpl; [done|].
  intros [= <-]. simpl. split_and!; try done.
  - case_decide; [|done]. by destruct (stem f).
  - by case_decide.
  - by repeat apply or_else_nonempty.
  - unfold post_types. repeat case_match; repeat constructor.
  - apply classify_in_table.
Qed.

Lemma parse_html_file_record_witness :
  exists m,
    parse_html_file (lib:=example_lib) (example_file (Some "night bus")) = Some m
    /\ slug m = "hello" /\ title m <> "" /\ author m <> "".
Proof.
  destruct (parse_html_file (lib:=example_lib) (example_file (Some "night bus")))
    as [m|] eqn:Hm; [|discriminate Hm].
  exists m.
  destruct (parse_html_file_record (lib:=example_lib) _ m Hm) as (Hs & Ht & Ha & _).
  by split_and!.
Defined.

(** ** Invariants of the scanner state *)

Lemma search_embed_id_unfold (src : string) :
  search_embed_id src
  = match (if PyStr.startswith "youtube.com/embed/" src
           then match take_while is_id_char (PyStr.drop 18 src) with
                | "" => None
                | id => Some id
                end
           else None) with
    | Some id => Some id
    | None => match src with
              | "" => None
              | String _ src' => search_embed_id src'
              end
    end.
Proof. by destruct src. Qed.

Lemma take_while_all (cls : ascii -> bool) (s : string) :
  all_chars cls (take_while cls s) = true.
Proof.
  induction s as [|c s IH]; simpl; [done|].
  destruct (cls c) eqn:Hc; simpl; [by rewrite Hc|done].
Qed.

Lemma search_embed_id_chars (src : string) (id : string) :
  search_embed_id src = Some id -> id <> "" /\ all_chars is_id_char id = true.
Proof.
  induction src as [|c src IH]; [done|]. rewrite search_embed_id_unfold.
  destruct (PyStr.startswith _ _); [|apply IH].
  destruct (take_while is_id_char (PyStr.drop 18 (String c src)))
    as [|c' run] eqn:Htake; [apply IH|].
  intros [= <-]. split; [done|]. rewrite <- Htake. apply take_while_all.
Qed.

(** The part of the state that the invariants speak of, after a start
    tag: the video id is kept or comes out of the embed search, and the
    content flag and depth are kept, opened at 1, or one deeper inside
    the content. *)
Lemma handle_starttag_state (tag : string) (attrs : list (string * option string))
    (self p : BlogPostParser) :
  handle_starttag tag attrs self = inr p ->
  (p_youtube_id p = p_youtube_id self
   \/ exists src, search_embed_id src = Some (p_youtube_id p))
  /\ ((in_content p = in_content self /\ content_depth p = content_depth self)
      \/ (in_content p = true /\ content_depth p = 1%Z)
      \/ (in_content self = true /\ in_content p = true
          /\ content_depth p = (content_depth self + 1)%Z)).
Proof.
  unfold handle_starttag, and_then, py_in, bind, ret, raise.
  repeat (case_match; try done); intros [= <-]; simpl;
    (split; [eauto|]); try (by left); try (by right; left).
  all: right; right; by destruct (in_content self).
Qed.

Lemma handle_event_invariants (self p : BlogPostParser) (e : event) :
  handle_event self e = inr p ->
  all_chars is_id_char (p_youtube_id self) = true ->
  depth_agrees self ->
  all_chars is_id_char (p_youtube_id p) = true /\ depth_agrees p.
Proof.
  unfold depth_agrees. destruct e as [tag attrs|tag|data]; simpl.
  - intros ([Hid|[src Hsrc]] & Hdepth)%handle_starttag_state Hchars Hagree.
    + split; [by rewrite Hid|].
      destruct Hdepth as [[-> ->]|[[-> ->]|(Hin & -> & ->)]]; [done|done|].
      rewrite Hin in Hagree. lia.
    + split; [by apply search_embed_id_chars in Hsrc as [_ ?]|].
      destruct Hdepth as [[-> ->]|[[-> ->]|(Hin & -> & ->)]]; [done|done|].
      rewrite Hin in Hagree. lia.
  - intros [= <-] Hchars Hagree. unfold handle_endtag.
    destruct (in_content self) eqn:Hin;
      repeat case_match; simpl; rewrite ?Hin; (split; [done|]);
      simplify_eq/=; try done; try congruence; lia.
  - intros [= <-] Hchars Hagree. unfold handle_data.
    destruct (in_content self) eqn:Hin;
      repeat case_match; simpl in *; rewrite ?Hin; try done; congruence.
Qed.

(** X4. After any stream that the scanner reads to the end, the video
    id it holds is empty or made of characters of [[A-Za-z0-9_-]], and
    the depth counter is 0 outside the content container and at least 1
    inside. *)
Theorem run_events_invariants (events : list event) (p : BlogPostParser) :
  run_events new_parser events = inr p ->
  all_chars is_id_char (p_youtube_id p) = true /\ depth_agrees p.
Proof.
  assert (Hgen : forall self,
            all_chars is_id_char (p_youtube_id self) = true -> depth_agrees self ->
            run_events self events = inr p ->
            all_chars is_id_char (p_youtube_id p) = true /\ depth_agrees p).
  { induction events as [|e events IH]; intros self Hchars Hagree; simpl.
    - by intros [= <-].
    - destruct (handle_event self e) as [err|q] eqn:He; simpl; [done|].
      destruct (handle_event_invariants _ _ _ He Hchars Hagree) as [Hq1 Hq2].
      by apply IH. }
  by apply Hgen.
Qed.

Lemma run_events_invariants_witness :
  let events :=
    [StartTag "div" [("class", Some "article-content")];
     StartTag "iframe" [("src", Some "https://www.youtube.com/embed/dQw4w9WgXcQ?rel=0")];
     StartTag "div" []; EndTag "div"] in
  exists p,
    run_events new_parser events = inr p
    /\ p_youtube_id p = "dQw4w9WgXcQ"
    /\ all_chars is_id_char (p_youtube_id p) = true /\ depth_agrees p.
Proof.
  intros events.
  destruct (run_events new_parser events) as [e|p] eqn:Hrun; [discriminate Hrun|].
  exists p. split; [done|]. split; [by injection Hrun as <-|].
  by apply (run_events_invariants events).
Defined.

(** ** Indexing new documents *)

Section IndexNewFacts.
Context `{lib : PyLib}.

Lemma index_loop_cons f files st :
  index_loop (f :: files) st = index_loop files (index_file st f).
Proof. done. Qed.

Lemma index_file_step cache counts f :
  index_file (cache, counts) f
  = if Dict.mem (stem f) cache then
      (cache, mkIndexCounts (indexed_count counts) (S (skipped_count counts))
                (failed_count counts))
    else
      match parse_html_file f with
      | Some metadata =>
          (Dict.set (stem f) metadata cache,
           mkIndexCounts (S (indexed_count counts)) (skipped_count counts)
             (failed_count counts))
      | None =>
          (cache, mkIndexCounts (indexed_count counts) (skipped_count counts)
                    (S (failed_count counts)))
      end.
Proof. done. Qed.

Lemma dict_mem_get {V} (k : string) (d : list (string * V)) :
  Dict.mem k d = true <-> is_Some (Dict.get k d).
Proof. unfold Dict.mem. apply bool_decide_eq_true. Qed.

Lemma dict_mem_false {V} (k : string) (d : list (string * V)) :
  Dict.mem k d = false <-> Dict.get k d = None.
Proof.
  unfold Dict.mem. rewrite bool_decide_eq_false, eq_None_not_Some. done.
Qed.

Lemma index_file_keeps cache counts f k m :
  Dict.get k cache = Some m ->
  Dict.get k (index_file (cache, counts) f).1 = Some m.
Proof.
  intros Hk. rewrite index_file_step.
  destruct (Dict.mem (stem f) cache) eqn:Hmem; [done|].
  destruct (parse_html_file f); [|done]. simpl.
  rewrite dict_get_set_ne; [done|].
  intros <-. apply dict_mem_false in Hmem. congruence.
Qed.

Lemma index_loop_keeps files : forall cache counts k m,
  Dict.get k cache = Some m ->
  Dict.get k (index_loop files (cache, counts)).1 = Some m.
Proof.
  induction files as [|f files IH]; intros cache counts k m Hk; [done|].
  rewrite index_loop_cons.
  pose proof (index_file_keeps cache counts f k m Hk) as Hstep.
  destruct (index_file (cache, counts) f) as [cache' counts']. by apply IH.
Qed.

Lemma index_files_cache w :
  metadata_cache (index_existing_files w).1
  = (index_loop (html_files w) (metadata_cache w, mkIndexCounts 0 0 0)).1
  /\ (index_existing_files w).2
     = (index_loop (html_files w) (metadata_cache w, mkIndexCounts 0 0 0)).2
  /\ html_files (index_existing_files w).1 = html_files w
  /\ (0 < indexed_count (index_existing_files w).2 ->
      metadata_file (index_existing_files w).1
      = Some (metadata_cache (index_existing_files w).1))
  /\ (indexed_count (index_existing_files w).2 = 0 ->
      metadata_file (index_existing_files w).1 = metadata_file w).
Proof.
  unfold index_existing_files.
  destruct (index_loop _ _) as [cache counts]. simpl.
  case_decide; simpl; split_and!; try done; lia.
Qed.

(** X5. [index_existing_files] never touches a record that is already
    in the store: every entry present before the pass is the same after
    it. *)
Theorem index_existing_files_keeps_entries (w : World) (k : string) (m : PostMetadata) :
  Dict.get k (metadata_cache w) = Some m ->
  Dict.get k (metadata_cache (index_existing_files w).1) = Some m.
Proof.
  intros Hk. destruct (index_files_cache w) as (-> & _).
  by apply index_loop_keeps.
Qed.

Lemma index_loop_new files : forall cache counts f fresh,
  NoDup (stem <$> files) ->
  f ∈ files ->
  Dict.get (stem f) cache = None ->
  parse_html_file f = Some fresh ->
  Dict.get (stem f) (index_loop files (cache, counts)).1 = Some fresh.
Proof.
  induction files as [|g files IH]; intros cache counts f fresh Hnd Hin Hnew Hparse.
  - by apply elem_of_nil in Hin.
  - rewrite fmap_cons in Hnd. apply NoDup_cons in Hnd as [Hg Hnd].
    rewrite index_loop_cons.
    apply elem_of_cons in Hin as [->|Hin].
    + rewrite index_file_step.
      rewrite (proj2 (dict_mem_false _ _) Hnew), Hparse.
      apply index_loop_keeps, dict_get_set_eq.
    + assert (Hne : stem g <> stem f).
      { intros Heq. apply Hg. rewrite Heq. by apply (list_elem_of_fmap_2 stem). }
      rewrite index_file_step.
      destruct (Dict.mem (stem g) cache); [by apply IH|].
      destruct (parse_html_file g); [|by apply IH].
      apply IH; try done. by rewrite dict_get_set_ne.
Qed.

(** X6. A document whose slug is not yet in the store and that scans
    well is stored by [index_existing_files] exactly as scanned. *)
Theorem index_existing_files_adds_scan (w : World) (f : File) (fresh : PostMetadata) :
  NoDup (stem <$> blog_files w) ->
  f ∈ html_files w ->
  Dict.get (stem f) (metadata_cache w) = None ->
  parse_html_file f = Some fresh ->
  Dict.get (stem f) (metadata_cache (index_existing_files w).1) = Some fresh.
Proof.
  intros Hnd Hin Hnew Hparse. destruct (index_files_cache w) as (-> & _).
  apply index_loop_new; try done. by apply html_files_stems.
Qed.

Lemma dict_set_length {V} (k : string) (v : V) (d : list (string * V)) :
  Dict.get k d = None -> length (Dict.set k v d) = S (length d).
Proof.
  induction d as [|[k' v'] d IH]; simpl; [done|].
  case_decide; [done|]. intros Hk. simpl. by rewrite IH.
Qed.

Lemma index_loop_counts files : forall cache counts,
  indexed_count (index_loop files (cache, counts)).2
  + skipped_count (index_loop files (cache, counts)).2
  + failed_count (index_loop files (cache, counts)).2
  = indexed_count counts + skipped_count counts + failed_count counts + length files
  /\ length (index_loop files (cache, counts)).1 + indexed_count counts
     = length cache + indexed_count (index_loop files (cache, counts)).2.
Proof.
  induction files as [|f files IH]; intros cache counts.
  - unfold index_loop. simpl. lia.
  - rewrite index_loop_cons, index_file_step.
    destruct (Dict.mem (stem f) cache) eqn:Hmem.
    + destruct (IH cache (mkIndexCounts (indexed_count counts)
                            (S (skipped_count counts)) (failed_count counts)))
        as [H1 H2]. simpl in *. lia.
    + destruct (parse_html_file f) as [m|].
      * destruct (IH (Dict.set (stem f) m cache)
                    (mkIndexCounts (S (indexed_count counts)) (skipped_count counts)
                       (failed_count counts))) as [H1 H2].
        rewrite dict_set_length in H2 by (by apply dict_mem_false).
        simpl in *. lia.
      * destruct (IH cache (mkIndexCounts (indexed_count counts)
                              (skipped_count counts) (S (failed_count counts))))
          as [H1 H2]. simpl in *. lia.
Qed.

(** X7. The three counters of [index_existing_files] add up to the
    number of documents, and the store grows by exactly the number of
    documents counted as indexed. *)
Theorem index_existing_files_counts (w : World) :
  indexed_count (index_existing_files w).2 + skipped_count (index_existing_files w).2
  + failed_count (index_existing_files w).2 = length (html_files w)
  /\ length (metadata_cache (index_existing_files w).1)
     = length (metadata_cache w) + indexed_count (index_existing_files w).2.
Proof.
  destruct (index_files_cache w) as (-> & -> & _).
  destruct (index_loop_counts (html_files w) (metadata_cache w) (mkIndexCounts 0 0 0))
    as [H1 H2]. simpl in *. lia.
Qed.

(** After the loop every document is in the store or does not scan. *)
Lemma index_loop_settles files : forall cache counts f,
  f ∈ files ->
  Dict.mem (stem f) (index_loop files (cache, counts)).1 = true
  \/ parse_html_file f = None.
Proof.
  induction files as [|g files IH]; intros cache counts f Hin.
  - by apply elem_of_nil in Hin.
  - rewrite index_loop_cons. apply elem_of_cons in Hin as [->|Hin].
    + rewrite index_file_step.
      destruct (Dict.mem (stem g) cache) eqn:Hmem.
      * left. apply dict_mem_get in Hmem as [m Hm]. apply dict_mem_get.
        exists m. by apply index_loop_keeps.
      * destruct (parse_html_file g) as [m|]; [|by right].
        left. apply dict_mem_get. exists m.
        apply index_loop_keeps, dict_get_set_eq.
    + destruct (index_file (cache, counts) g). by apply IH.
Qed.

Lemma index_loop_settled files : forall cache counts,
  (forall f, f ∈ files -> Dict.mem (stem f) cache = true \/ parse_html_file f = None) ->
  (index_loop files (cache, counts)).1 = cache
  /\ indexed_count (index_loop files (cache, counts)).2 = indexed_count counts.
Proof.
  induction files as [|g files IH]; intros cache counts Hsettled; [done|].
  rewrite index_loop_cons, index_file_step.
  assert (Hrest : forall f, f ∈ files ->
            Dict.mem (stem f) cache = true \/ parse_html_file f = None).
  { intros f Hf. apply Hsettled. by right. }
  destruct (Dict.mem (stem g) cache) eqn:Hmem.
  { by destruct (IH cache (mkIndexCounts (indexed_count counts)
                             (S (skipped_count counts)) (failed_count counts)) Hrest). }
  destruct (Hsettled g) as [Hg|Hg]; [by left|congruence|].
  rewrite Hg.
  by destruct (IH cache (mkIndexCounts (indexed_count counts)
                           (skipped_count counts) (S (failed_count counts))) Hrest).
Qed.

(** X8. [index_existing_files] is idempotent: a second pass right after
    the first indexes nothing, leaves the store as it is and does not
    write the metadata file. *)
Theorem index_existing_files_twice (w : World) :
  metadata_cache (index_existing_files (index_existing_files w).1).1
  = metadata_cache (index_existing_files w).1
  /\ indexed_count (index_existing_files (index_existing_files w).1).2 = 0
  /\ metadata_file (index_existing_files (index_existing_files w).1).1
     = metadata_file (index_existing_files w).1.
Proof.
  destruct (index_files_cache w) as (Hcache & _ & Hfiles & _).
  destruct (index_files_cache (index_existing_files w).1)
    as (Hcache2 & Hcounts2 & _ & _ & Hkept).
  destruct (index_loop_settled (html_files (index_existing_files w).1)
              (metadata_cache (index_existing_files w).1) (mkIndexCounts 0 0 0))
    as [Hsame Hzero].
  { intros f Hf. rewrite Hfiles in Hf. rewrite Hcache. by apply index_loop_settles. }
  rewrite Hcounts2, Hzero in *. rewrite Hcache2, Hsame.
  split_and!; [done..|]. by apply Hkept.
Qed.

End IndexNewFacts.

Lemma index_existing_files_keeps_entries_witness :
  Dict.get "hello"
    (metadata_cache
       (index_existing_files (lib:=example_lib) (example_world false (Some "night bus"))).1)
  = Some (example_post false).
Proof.
  by apply (index_existing_files_keeps_entries (lib:=example_lib)
              (example_world false (Some "night bus")) "hello" (example_post false)).
Defined.

Lemma index_existing_files_adds_scan_witness :
  exists fresh,
    Dict.get "hello"
      (metadata_cache
         (index_existing_files (lib:=example_lib) (example_new_site (Some "night bus"))).1)
    = Some fresh
    /\ title fresh = "Untitled (hello)".
Proof.
  exists (default (example_post true)
            (parse_html_file (lib:=example_lib) (example_file (Some "night bus")))).
  split; [|reflexivity].
  apply (index_existing_files_adds_scan (lib:=example_lib)
           (example_new_site (Some "night bus")) (example_file (Some "night bus"))).
  - by apply (bool_decide_unpack _).
  - apply list_elem_of_filter. split; [by vm_compute|left].
  - reflexivity.
  - reflexivity.
Defined.

(** ** More on reindexing *)

Section ReindexFacts.
Context `{lib : PyLib}.

Lemma parse_html_file_scanned (f : File) (m : PostMetadata) :
  parse_html_file f = Some m ->
  slug m = stem f /\ indexed_from_file m = true /\ view_count m = 0%Z.
Proof.
  unfold parse_html_file, parse_html_file_body.
  destruct (file_text f) as [text|]; [|done].
  destruct (run_events new_parser (html_feed text)) as [e|parser]; [done|]. simpl.
  destruct (if decide (_ = "") then _ else _) as [e|created]; simpl; [done|].
  by intros [= <-].
Qed.

Lemma reindex_files_listing (w : World) :
  html_files (reindex_files true w).1 = html_files w
  /\ blog_files (reindex_files true w).1 = blog_files w.
Proof.
  unfold reindex_files, html_files. simpl.
  assert (Hf : blog_files (backup_metadata w) = blog_files w)
    by (unfold backup_metadata; by destruct (metadata_file w)).
  destruct (reindex_loop _ _ _) as [cache counts].
  case_decide; simpl; by rewrite Hf.
Qed.

(** X9. The curated fields survive one pass only. The record that a
    pass stores is marked as indexed from a file, so after a second pass
    the entry of a document that scans well is the fresh scan with
    nothing but the view count of the original record. *)
Theorem reindex_twice_drops_curated_fields (w : World) (f : File)
    (fresh prior : PostMetadata) :
  NoDup (stem <$> blog_files w) ->
  f ∈ html_files w ->
  parse_html_file f = Some fresh ->
  Dict.get (stem f) (metadata_cache w) = Some prior ->
  exists entry,
    Dict.get (stem f)
      (metadata_cache (reindex_files true (reindex_files true w).1).1) = Some entry
    /\ view_count entry = view_count prior
    /\ author entry = author fresh
    /\ series entry = series fresh
    /\ created_date entry = created_date fresh.
Proof.
  intros Hnd Hin Hparse Hprior.
  destruct (parse_html_file_scanned f fresh Hparse) as (_ & Hscanned & _).
  destruct (reindex_files_listing w) as [Hfiles Hblog].
  destruct (reindex_files_cache w) as (Hcache & _).
  destruct (reindex_files_cache (reindex_files true w).1) as (-> & _).
  rewrite Hfiles.
  erewrite reindex_loop_scanned by eauto using html_files_stems.
  rewrite Hcache.
  erewrite reindex_loop_scanned by eauto using html_files_stems.
  rewrite Hprior. eexists. split; [done|].
  unfold preserve_original.
  destruct (indexed_from_file prior); simpl; by rewrite Hscanned.
Qed.

Lemma reindex_loop_keeps_keys original files : forall cache counts k,
  is_Some (Dict.get k cache) ->
  is_Some (Dict.get k (reindex_loop original files (cache, counts)).1).
Proof.
  induction files as [|f files IH]; intros cache counts k Hk; [exact Hk|].
  rewrite reindex_loop_cons, reindex_file_step.
  destruct (parse_html_file f) as [m|]; apply IH; [|done].
  destruct (decide (stem f = k)) as [<-|Hne].
  - rewrite dict_get_set_eq. by eexists.
  - by rewrite dict_get_set_ne.
Qed.

(** X10. A reindex pass never removes an entry, and it leaves every
    entry whose slug has no document exactly as it was. *)
Theorem reindex_files_keeps_keys (w : World) (k : string) :
  (is_Some (Dict.get k (metadata_cache w)) ->
   is_Some (Dict.get k (metadata_cache (reindex_files true w).1)))
  /\ (k ∉ stem <$> html_files w ->
      Dict.get k (metadata_cache (reindex_files true w).1)
      = Dict.get k (metadata_cache w)).
Proof.
  destruct (reindex_files_cache w) as (-> & _). split.
  - apply reindex_loop_keeps_keys.
  - apply reindex_loop_absent.
Qed.

Lemma dict_get_set_inv {V} (k k' : string) (v m : V) (d : list (string * V)) :
  Dict.get k (Dict.set k' v d) = Some m ->
  (k = k' /\ m = v) \/ (k <> k' /\ Dict.get k d = Some m).
Proof.
  destruct (decide (k' = k)) as [->|Hne].
  - rewrite dict_get_set_eq. intros [= ->]. by left.
  - rewrite dict_get_set_ne by done. intros Hk. right. by split.
Qed.

Lemma preserve_original_slug original m : slug (preserve_original original m) = slug m.
Proof.
  unfold preserve_original. destruct original as [o|]; [|done].
  by destruct (indexed_from_file o).
Qed.

Lemma reindex_loop_keyed original files : forall cache counts,
  keyed_by_slug cache ->
  keyed_by_slug (reindex_loop original files (cache, counts)).1.
Proof.
  induction files as [|f files IH]; intros cache counts Hkeyed; [exact Hkeyed|].
  rewrite reindex_loop_cons, reindex_file_step.
  destruct (parse_html_file f) as [m|] eqn:Hm; apply IH; [|done].
  intros k m' [[-> ->]|[_ Hk]]%dict_get_set_inv; [|by apply Hkeyed].
  rewrite preserve_original_slug. by apply parse_html_file_scanned in Hm as [? _].
Qed.

Lemma index_loop_keyed files : forall cache counts,
  keyed_by_slug cache ->
  keyed_by_slug (index_loop files (cache, counts)).1.
Proof.
  induction files as [|f files IH]; intros cache counts Hkeyed; [exact Hkeyed|].
  rewrite index_loop_cons, index_file_step.
  destruct (Dict.mem (stem f) cache); [by apply IH|].
  destruct (parse_html_file f) as [m|] eqn:Hm; apply IH; [|done].
  intros k m' [[-> ->]|[_ Hk]]%dict_get_set_inv; [|by apply Hkeyed].
  by apply parse_html_file_scanned in Hm as [? _].
Qed.

(** X11. Both indexing passes keep every record under its own slug: if
    each entry of the store has its key as slug before the pass, so it
    has after [reindex_files] and after [index_existing_files]. *)
Theorem passes_keep_keyed_by_slug (w : World) :
  keyed_by_slug (metadata_cache w) ->
  keyed_by_slug (metadata_cache (reindex_files true w).1)
  /\ keyed_by_slug (metadata_cache (index_existing_files w).1).
Proof.
  intros Hkeyed. split.
  - destruct (reindex_files_cache w) as (-> & _). by apply reindex_loop_keyed.
  - destruct (index_files_cache w) as (-> & _). by apply index_loop_keyed.
Qed.

End ReindexFacts.

Lemma reindex_twice_drops_curated_fields_witness :
  exists entry,
    Dict.get "hello"
      (metadata_cache
         (reindex_files (lib:=example_lib) true
            (reindex_files (lib:=example_lib) true
               (example_world false (Some "night bus"))).1).1)
    = Some entry
    /\ view_count entry = 7%Z /\ author entry = "The Team" /\ series entry = "".
Proof.
  destruct (reindex_twice_drops_curated_fields (lib:=example_lib)
              (example_world false (Some "night bus"))
              (example_file (Some "night bus"))
              (default (example_post true)
                 (parse_html_file (lib:=example_lib) (example_file (Some "night bus"))))
              (example_post false))
    as (entry & Hget & Hv & Ha & Hs & _).
  - by apply (bool_decide_unpack _).
  - apply list_elem_of_filter. split; [by vm_compute|left].
  - reflexivity.
  - reflexivity.
  - by exists entry.
Defined.

Lemma passes_keep_keyed_by_slug_witness :
  keyed_by_slug
    (metadata_cache
       (reindex_files (lib:=example_lib) true (example_world false (Some "night bus"))).1).
Proof.
  apply (passes_keep_keyed_by_slug (lib:=example_lib)).
  intros k m. simpl. case_decide; [|done]. by intros [= <-].
Defined.

(** ** The slug allocator on any title *)

(** X12. [create_slug] always answers; the slug is not a key of the
    store; it is the normalised title or that followed by a hyphen and a
    positive number; and once the slug is stored, allocating again, for
    any title, gives another slug. *)
Theorem create_slug_fresh (cache : list (string * PostMetadata)) (title : string) :
  exists slug,
    create_slug cache title = Some slug
    /\ Dict.mem slug cache = false
    /\ (slug = base_slug title
        \/ exists N : nat, 0 < N /\ slug = base_slug title +:+ "-" +:+ pretty N)
    /\ forall (m : PostMetadata) (title' : string),
         create_slug (Dict.set slug m cache) title' <> Some slug.
Proof.
  destruct (create_slug_first_free cache title) as (k & Hslug & Hfree & _).
  exists (candidate (base_slug title) k). split_and!; [done..| |].
  - destruct k as [|k]; [by left|right]. exists (S k). split; [lia|done].
  - intros m title' Hagain.
    destruct (create_slug_first_free (Dict.set (candidate (base_slug title) k) m cache)
                title') as (k' & Hslug' & Hfree' & _).
    rewrite Hagain in Hslug'. injection Hslug' as Heq. rewrite <- Heq in Hfree'.
    apply dict_mem_false in Hfree'. by rewrite dict_get_set_eq in Hfree'.
Qed.

(** *** The shape of a normalised title *)

Lemma all_chars_app (P : ascii -> bool) (a b : string) :
  all_chars P (a +:+ b) = all_chars P a && all_chars P b.
Proof. induction a as [|c a IH]; simpl; [done|]. by rewrite IH, andb_assoc. Qed.

Lemma all_chars_rev (P : ascii -> bool) (s : string) :
  all_chars P (PyStr.rev s) = all_chars P s.
Proof.
  induction s as [|c s IH]; [done|].
  rewrite rev_cons, all_chars_app, IH. simpl. by rewrite andb_true_r, andb_comm.
Qed.

Lemma all_chars_lower (s : string) : all_chars is_lowered (PyStr.lower s) = true.
Proof.
  induction s as [|c s IH]; simpl; [done|]. rewrite IH, andb_true_r.
  unfold is_lowered. apply bool_decide_eq_true.
  by destruct c as [[] [] [] [] [] [] [] []].
Qed.

Lemma lstrip_by_suffix (f : ascii -> bool) (s : string) :
  exists a, s = a +:+ PyStr.lstrip_by f s /\ all_chars f a = true.
Proof.
  induction s as [|c s (a & Hs & Ha)]; simpl; [by exists ""|].
  destruct (f c) eqn:Hc.
  - exists (String c a). simpl. by rewrite Hc, Ha, <- Hs.
  - by exists "".
Qed.

Lemma rstrip_by_prefix (f : ascii -> bool) (s : string) :
  exists b, s = PyStr.rstrip_by f s +:+ b /\ all_chars f b = true.
Proof.
  unfold PyStr.rstrip_by.
  destruct (lstrip_by_suffix f (PyStr.rev s)) as (a & Hs & Ha).
  exists (PyStr.rev a). split; [|by rewrite all_chars_rev].
  rewrite <- rev_app, <- Hs. by rewrite rev_involutive.
Qed.

Lemma strip_by_middle (f : ascii -> bool) (s : string) :
  exists a b, s = a +:+ PyStr.strip_by f s +:+ b
              /\ all_chars f a = true /\ all_chars f b = true.
Proof.
  unfold PyStr.strip_by.
  destruct (lstrip_by_suffix f s) as (a & Hs & Ha).
  destruct (rstrip_by_prefix f (PyStr.lstrip_by f s)) as (b & Ht & Hb).
  exists a, b. split; [|done]. by rewrite <- Ht.
Qed.

Lemma strip_by_all_chars (P f : ascii -> bool) (s : string) :
  all_chars P s = true -> all_chars P (PyStr.strip_by f s) = true.
Proof.
  destruct (strip_by_middle f s) as (a & b & Hs & _). rewrite Hs at 1.
  rewrite !all_chars_app, !andb_true_iff. tauto.
Qed.

Lemma sub_runs_all_chars (P cls : ascii -> bool) (repl : string) (s : string) :
  all_chars P repl = true ->
  all_chars P s = true ->
  forall in_run, all_chars P (sub_runs cls repl in_run s) = true.
Proof.
  intros Hrepl. induction s as [|c s IH]; simpl; [done|].
  intros [Hc Hs]%andb_true_iff in_run.
  destruct (cls c); [destruct in_run|]; simpl;
    rewrite ?all_chars_app, ?Hrepl, ?Hc, ?IH; done.
Qed.

Lemma sub_runs_removes (cls : ascii -> bool) (s : string) : forall in_run,
  all_chars (fun c => negb (cls c)) (sub_runs cls "" in_run s) = true.
Proof.
  induction s as [|c s IH]; intros in_run; simpl; [done|].
  destruct (cls c) eqn:Hc; [destruct in_run|]; simpl; rewrite ?Hc, ?IH; done.
Qed.

Lemma sub_hyphen_runs_unfold (in_run : bool) (c : ascii) (s : string) :
  sub_hyphen_runs in_run (String c s)
  = if is_hyphen c then
      if in_run then sub_hyphen_runs true s
      else match s with
           | String c' _ =>
               if is_hyphen c' then "-" +:+ sub_hyphen_runs true s
               else String c (sub_hyphen_runs false s)
           | "" => String c ""
           end
    else String c (sub_hyphen_runs false s).
Proof. done. Qed.

Lemma sub_hyphen_runs_all_chars (P : ascii -> bool) (s : string) :
  P "-"%char = true ->
  all_chars P s = true ->
  forall in_run, all_chars P (sub_hyphen_runs in_run s) = true.
Proof.
  intros Hhyphen. induction s as [|c s IH]; [done|].
  intros Hall in_run. pose proof Hall as [Hc Hs]%andb_true_iff.
  rewrite sub_hyphen_runs_unfold.
  destruct (is_hyphen c).
  - destruct in_run; [by apply IH|].
    destruct s as [|c' s']; [cbn [all_chars]; by rewrite Hc|].
    destruct (is_hyphen c').
    + change (all_chars P (String "-" (sub_hyphen_runs true (String c' s'))) = true).
      cbn [all_chars]. by rewrite Hhyphen, IH.
    + cbn [all_chars]. by rewrite Hc, IH.
  - cbn [all_chars]. by rewrite Hc, IH.
Qed.

Lemma contains_cons (p : string) (c : ascii) (s : string) :
  PyStr.contains p (String c s) = PyStr.startswith p (String c s) || PyStr.contains p s.
Proof. done. Qed.

Lemma startswith_cons (a c : ascii) (p s : string) :
  PyStr.startswith (String a p) (String c s)
  = bool_decide (a = c) && PyStr.startswith p s.
Proof. simpl. by case_decide; case_bool_decide. Qed.

(** After [sub_hyphen_runs] no two hyphens are adjacent, and within a
    run that is already replaced the output does not start with one. *)
Lemma sub_hyphen_runs_single (s : string) : forall in_run,
  PyStr.contains "--" (sub_hyphen_runs in_run s) = false
  /\ (in_run = true -> PyStr.startswith "-" (sub_hyphen_runs in_run s) = false).
Proof.
  induction s as [|c s IH]; intros in_run; [by destruct in_run|].
  rewrite sub_hyphen_runs_unfold.
  destruct (is_hyphen c) eqn:Hc;
    [apply bool_decide_eq_true in Hc|apply bool_decide_eq_false in Hc].
  - subst c. destruct in_run; [apply IH|].
    split; [|done]. destruct s as [|c' s']; [done|].
    unfold is_hyphen. case_bool_decide as Hc'.
    + destruct (IH true) as [Hno Hstart]. specialize (Hstart eq_refl).
      change ("-" +:+ sub_hyphen_runs true (String c' s'))
        with (String "-" (sub_hyphen_runs true (String c' s'))).
      rewrite contains_cons, Hno, orb_false_r, startswith_cons, Hstart.
      apply andb_false_r.
    + destruct (IH false) as [Hno _].
      rewrite contains_cons, Hno, orb_false_r, startswith_cons.
      rewrite sub_hyphen_runs_unfold. unfold is_hyphen.
      rewrite (bool_decide_eq_false_2 (c' = "-"%char)) by done.
      rewrite startswith_cons, (bool_decide_eq_false_2 ("-"%char = c')) by done.
      apply andb_false_r.
  - destruct (IH false) as [Hno _]. split.
    + rewrite contains_cons, Hno, orb_false_r, startswith_cons.
      by rewrite bool_decide_eq_false_2.
    + intros _. rewrite startswith_cons. by rewrite bool_decide_eq_false_2.
Qed.

Lemma strip_by_no_edges (f : ascii -> bool) (s : string) :
  (forall c t, PyStr.strip_by f s = String c t -> f c = false)
  /\ (forall c t, PyStr.strip_by f s = t +:+ String c "" -> f c = false).
Proof.
  assert (Hl : forall u c t, PyStr.lstrip_by f u = String c t -> f c = false).
  { induction u as [|x u IH]; simpl; [done|]. intros c t.
    destruct (f x) eqn:Hx; [apply IH|]. by intros [= <- _]. }
  unfold PyStr.strip_by, PyStr.rstrip_by. split.
  - intros c t Hs.
    destruct (PyStr.lstrip_by f s) as [|x u] eqn:Hu; [done|].
    pose proof (Hl _ _ _ Hu) as Hx.
    destruct (rstrip_by_keeps f x "" Hx u) as [b' Hb]. simpl in Hb.
    unfold PyStr.rstrip_by in Hb. rewrite Hb in Hs. by injection Hs as <- _.
  - intros c t Hs. apply (f_equal PyStr.rev) in Hs.
    rewrite rev_involutive, rev_app in Hs. by apply Hl in Hs.
Qed.

Lemma base_slug_shaped (title : string) : slug_shaped (base_slug title).
Proof.
  unfold base_slug, slug_shaped.
  set (s0 := PyStr.strip (PyStr.lower title)).
  set (s1 := sub_runs PyStr.isspace "-" false s0).
  set (s2 := sub_runs (fun c => negb (is_word_char c || is_hyphen c)) "" false s1).
  set (s3 := sub_hyphen_runs false s2).
  assert (Hlow : all_chars is_lowered s3 = true).
  { apply sub_hyphen_runs_all_chars; [done|].
    apply sub_runs_all_chars; [done|].
    apply sub_runs_all_chars; [done|].
    apply strip_by_all_chars, all_chars_lower. }
  assert (Hok : all_chars is_slug_char s3 = true).
  { apply sub_hyphen_runs_all_chars; [done|].
    pose proof (sub_runs_removes (fun c => negb (is_word_char c || is_hyphen c)) s1 false)
      as Hkept.
    fold s2 in Hkept. clear -Hkept. induction s2 as [|c s IH]; simpl in *; [done|].
    apply andb_true_iff in Hkept as [Hc Hs]. rewrite negb_involutive in Hc.
    unfold is_slug_char at 1. by rewrite Hc, IH. }
  destruct (strip_by_no_edges is_hyphen s3) as [Hfirst Hlast].
  destruct (strip_by_middle is_hyphen s3) as (a & b & Hs3 & _).
  split_and!.
  - apply strip_by_all_chars. clear -Hlow Hok.
    induction s3 as [|c s IH]; simpl in *; [done|].
    apply andb_true_iff in Hlow as [-> ?]. apply andb_true_iff in Hok as [-> ?].
    simpl. by apply IH.
  - intros t Ht. by apply Hfirst in Ht.
  - intros t Ht. by apply Hlast in Ht.
  - destruct (PyStr.contains "--" (PyStr.strip_by is_hyphen s3)) eqn:Hc; [|done].
    apply (contains_app _ a _ b) in Hc. rewrite <- Hs3 in Hc.
    pose proof (proj1 (sub_hyphen_runs_single s2 false)) as Hno.
    fold s3 in Hno. congruence.
Qed.

(** X13. The normalised title is made of word characters and hyphens
    that [lower] leaves unchanged, has no hyphen at either end and no
    two hyphens in a row. *)
Theorem base_slug_shape (title : string) : slug_shaped (base_slug title).
Proof. apply base_slug_shaped. Qed.

(** *** Normalising twice *)

Lemma all_chars_impl (P Q : ascii -> bool) (s : string) :
  (forall c, P c = true -> Q c = true) -> all_chars P s = true -> all_chars Q s = true.
Proof.
  intros HPQ. induction s as [|c s IH]; simpl; [done|].
  intros [Hc Hs]%andb_true_iff. by rewrite (HPQ c Hc), IH.
Qed.

Lemma lower_fixed (s : string) : all_chars is_lowered s = true -> PyStr.lower s = s.
Proof.
  induction s as [|c s IH]; simpl; [done|].
  intros [Hc Hs]%andb_true_iff. apply bool_decide_eq_true in Hc.
  by rewrite Hc, IH.
Qed.

Lemma sub_runs_fixed (cls : ascii -> bool) (repl s : string) :
  all_chars (fun c => negb (cls c)) s = true -> sub_runs cls repl false s = s.
Proof.
  induction s as [|c s IH]; simpl; [done|].
  intros [Hc Hs]%andb_true_iff. apply negb_true_iff in Hc. by rewrite Hc, IH.
Qed.

Lemma sub_hyphen_runs_fixed (s : string) :
  PyStr.contains "--" s = false -> sub_hyphen_runs false s = s.
Proof.
  induction s as [|c s IH]; [done|].
  rewrite contains_cons, orb_false_iff. intros [Hstart Hrest].
  rewrite sub_hyphen_runs_unfold, IH by done.
  destruct (is_hyphen c) eqn:Hc; [|done].
  apply bool_decide_eq_true in Hc. subst c.
  destruct s as [|c' s']; [done|].
  rewrite !startswith_cons in Hstart. rewrite bool_decide_eq_true_2 in Hstart by done.
  unfold is_hyphen. destruct (decide (c' = "-"%char)) as [->|Hc'].
  - by rewrite bool_decide_eq_true_2 in Hstart.
  - by rewrite bool_decide_eq_false_2.
Qed.

Lemma strip_by_fixed (f : ascii -> bool) (s : string) :
  (forall c t, s = String c t -> f c = false) ->
  (forall c t, s = t +:+ String c "" -> f c = false) ->
  PyStr.strip_by f s = s.
Proof.
  intros Hfirst Hlast.
  assert (Hl : forall u, (forall c t, u = String c t -> f c = false) ->
            PyStr.lstrip_by f u = u).
  { intros [|c u] Hu; simpl; [done|]. by rewrite (Hu c u). }
  unfold PyStr.strip_by, PyStr.rstrip_by. rewrite (Hl s Hfirst), Hl.
  - apply rev_involutive.
  - intros c t Ht. apply (Hlast c (PyStr.rev t)).
    by rewrite <- rev_cons, <- Ht, rev_involutive.
Qed.

Lemma slug_shaped_fixed (s : string) : slug_shaped s -> base_slug s = s.
Proof.
  intros (Hchars & Hfirst & Hlast & Hdouble). unfold base_slug.
  assert (Hedges : forall f : ascii -> bool,
            (forall c, is_slug_char c && is_lowered c = true -> f c = true ->
                       c = "-"%char) ->
            PyStr.strip_by f s = s).
  { intros f Hf. apply strip_by_fixed.
    - intros c t ->. destruct (f c) eqn:Hc; [|done].
      simpl in Hchars. apply andb_true_iff in Hchars as [Hok _].
      rewrite (Hf c Hok Hc) in Hfirst. by destruct (Hfirst t).
    - intros c t ->. destruct (f c) eqn:Hc; [|done].
      rewrite all_chars_app in Hchars. simpl in Hchars.
      apply andb_true_iff in Hchars as [_ Hok]. rewrite andb_true_r in Hok.
      rewrite (Hf c Hok Hc) in Hlast. by destruct (Hlast t). }
  rewrite lower_fixed by (eapply all_chars_impl; [|exact Hchars];
                          by intros c [_ ?]%andb_true_iff).
  unfold PyStr.strip. rewrite Hedges.
  2: { intros c Hok Hspace. exfalso. revert Hok Hspace. clear.
       by destruct c as [[] [] [] [] [] [] [] []]. }
  rewrite (sub_runs_fixed PyStr.isspace).
  2: { eapply all_chars_impl; [|exact Hchars]. clear.
       intros c. by destruct c as [[] [] [] [] [] [] [] []]. }
  rewrite sub_runs_fixed.
  2: { eapply all_chars_impl; [|exact Hchars]. intros c [Hok _]%andb_true_iff.
       unfold is_slug_char in Hok. by rewrite Hok. }
  rewrite sub_hyphen_runs_fixed by done.
  apply Hedges. intros c _ Hc. by apply bool_decide_eq_true in Hc.
Qed.

(** X14. Normalising is idempotent: the normalised title normalises to
    itself, so a slug without a numeric suffix is the base slug of a
    post titled with it. *)
Theorem base_slug_idempotent (title : string) :
  base_slug (base_slug title) = base_slug title.
Proof. apply slug_shaped_fixed, base_slug_shaped. Qed.

(** ** More on the listing page *)

(** X15. A successful regeneration changes nothing outside the two
    boundaries: the new page starts with the old text up to the end of
    the first opening marker, continues with the block of cards, and
    ends with the old text from the first [</div>] after the marker on. *)
Theorem regenerate_preserves_outside (content : string) (cards : list string)
    (page : string) :
  regenerate content cards = inr page ->
  exists p e,
    PyStr.find insertion_marker content 0 = Some p
    /\ PyStr.find end_marker content (p + String.length insertion_marker) = Some e
    /\ PyStr.take (p + String.length insertion_marker) page
       = PyStr.take (p + String.length insertion_marker) content
    /\ PyStr.take (String.length (cards_block cards))
         (PyStr.drop (p + String.length insertion_marker) page)
       = cards_block cards
    /\ PyStr.drop (p + String.length insertion_marker + String.length (cards_block cards))
         page
       = PyStr.drop e content.
Proof.
  intros (p & e & Hp & He & ->)%regenerate_shape. exists p, e.
  set (start := p + String.length insertion_marker) in *.
  assert (Hstart : start <= String.length content).
  { apply find_first in He. lia. }
  set (head := PyStr.take start content).
  assert (Hlen : String.length head = start).
  { unfold head. rewrite length_take. lia. }
  split_and!; [done..| | |].
  - rewrite <- Hlen at 1. apply take_app_length.
  - rewrite <- Hlen, drop_app_length. apply take_app_length.
  - rewrite <- drop_drop, <- Hlen, drop_app_length. apply drop_app_length.
Qed.

Lemma regenerate_preserves_outside_witness :
  exists page,
    regenerate example_page [] = inr page
    /\ PyStr.take 23 page = insertion_marker
    /\ PyStr.drop (23 + String.length (cards_block [])) page = "</div>".
Proof.
  destruct (regenerate example_page []) as [failure|page] eqn:Hregen;
    [discriminate Hregen|].
  exists page. split; [done|].
  destruct (regenerate_preserves_outside example_page [] page Hregen)
    as (p & e & Hp & He & Hhead & _ & Htail).
  injection Hp as <-. injection He as <-. split; [exact Hhead|exact Htail].
Defined.

(** X16. When the page holds the opening marker but no [</div>] after
    it, [update_blog_index] ends with the error of the missing end and
    writes nothing: the page keeps its text and only the backup copy is
    added. *)
Theorem update_blog_index_without_end `{lib : PyLib} (now : datetime) (w : World)
    (content : string) (p : nat) :
  index_html w = Some content ->
  PyStr.find insertion_marker content 0 = Some p ->
  PyStr.find end_marker content (p + String.length insertion_marker) = None ->
  update_blog_index now w = (GridEndNotFound, backup_index content w)
  /\ index_html (update_blog_index now w).2 = Some content.
Proof.
  intros Hpage Hp He.
  assert (Hregen : forall cards, regenerate content cards = inl GridEndNotFound).
  { intros cards. unfold regenerate.
    assert (Hc : PyStr.contains insertion_marker content = true)
      by (apply contains_find; by eexists).
    by rewrite Hc, Hp, He. }
  unfold update_blog_index. rewrite Hpage, Hregen. simpl. by rewrite Hpage.
Qed.

Lemma update_blog_index_without_end_witness :
  update_blog_index (lib:=example_lib) "" unclosed_site
  = (GridEndNotFound, backup_index unclosed_page unclosed_site).
Proof.
  by apply (update_blog_index_without_end (lib:=example_lib) "" unclosed_site
              unclosed_page 6).
Defined.

(** X17. The test [start_pos == -1] can never fire: it comes after the
    test that the marker is in the page, so no page makes
    [update_blog_index] end with the error of the missing start. *)
Theorem grid_start_error_unreachable `{lib : PyLib} (now : datetime) (w : World) :
  (update_blog_index now w).1 <> GridStartNotFound
  /\ forall content cards, regenerate content cards <> inl GridStartNotFound.
Proof.
  assert (Hregen : forall content cards, regenerate content cards <> inl GridStartNotFound).
  { intros content cards. unfold regenerate.
    destruct (PyStr.contains insertion_marker content) eqn:Hc; cbn [negb]; [|done].
    apply contains_find in Hc as [p Hp]. rewrite Hp.
    by destruct (PyStr.find end_marker content _). }
  split; [|done]. unfold update_blog_index.
  destruct (index_html w) as [content|]; [|done].
  destruct (regenerate content _) as [failure|page] eqn:Hr; [|done].
  simpl. intros ->. by apply Hregen in Hr.
Qed.

(** *** A store without published posts *)

(** No [</div>] starts inside the block of an empty card list, whatever
    follows the block. *)
Lemma empty_block_has_no_end (rest : string) (o : nat) :
  o < String.length (cards_block []) ->
  PyStr.startswith end_marker (PyStr.drop o (cards_block [] +:+ rest)) = false.
Proof.
  intros Ho.
  do 119 (destruct o as [|o]; [reflexivity|]).
  exfalso. revert Ho. vm_compute. lia.
Qed.

Lemma regenerate_without_cards_again (content page1 : string) :
  regenerate content [] = inr page1 -> regenerate page1 [] = inr page1.
Proof.
  intros (p & e & Hp & He & ->)%regenerate_shape.
  set (start := p + String.length insertion_marker) in *.
  set (block := cards_block []) in *.
  set (rest := PyStr.drop e content).
  assert (Hstart : start <= String.length content).
  { apply find_first in He. lia. }
  set (head := PyStr.take start content) in *.
  assert (Hlen : String.length head = start).
  { unfold head. rewrite length_take. lia. }
  assert (Hdrop : PyStr.drop start (head +:+ block +:+ rest) = block +:+ rest)
    by (rewrite <- Hlen; apply drop_app_length).
  assert (Htake : PyStr.take start (head +:+ block +:+ rest) = head)
    by (rewrite <- Hlen; apply take_app_length).
  assert (Hend : PyStr.startswith end_marker rest = true).
  { by apply find_first in He as (_ & ? & _). }
  destruct (find_found end_marker (head +:+ block +:+ rest) start
              (start + String.length block)) as (e' & He' & Hle).
  - rewrite !length_app_string, Hlen. lia.
  - by rewrite <- drop_drop, Hdrop, drop_app_length.
  - assert (e' = start + String.length block) as ->.
    { pose proof (find_first _ _ _ _ He') as (Hge & Hat & _).
      destruct (decide (e' = start + String.length block)) as [|Hne]; [done|].
      replace e' with (start + (e' - start)) in Hat by lia.
      rewrite <- drop_drop, Hdrop in Hat.
      rewrite empty_block_has_no_end in Hat; [done|]. fold block. lia. }
    rewrite (regenerate_from_positions _ _ p (start + String.length block));
      [|by apply regenerate_keeps_marker|exact He'].
    fold start block. rewrite Htake.
    by rewrite <- drop_drop, Hdrop, drop_app_length.
Qed.

Lemma cards_html_unpublished `{lib : PyLib} (now : datetime)
    (cache : list (string * PostMetadata)) :
  (forall post, post ∈ Dict.values cache -> published post = false) ->
  cards_html now cache = [].
Proof.
  intros Hnone. unfold cards_html.
  assert (Hfilter : filter (fun post => published post = true)
                      (sorted_posts (Dict.values cache)) = []).
  { assert (Hall : Forall (fun post => published post = false)
                      (sorted_posts (Dict.values cache))).
    { apply Forall_forall. intros post Hin. apply Hnone.
      by apply sorted_posts_elem. }
    induction Hall as [|post l Hpost _ IH]; [done|].
    rewrite filter_cons_False; [done|]. by rewrite Hpost. }
  by rewrite Hfilter.
Qed.

(** X18. While no record of the store is published, regeneration is
    idempotent: a pass over the output of a successful pass succeeds and
    writes the same text again. *)
Theorem update_blog_index_idempotent_unpublished `{lib : PyLib} (now : datetime)
    (w : World) :
  (forall post, post ∈ Dict.values (metadata_cache w) -> published post = false) ->
  (update_blog_index now w).1 = IndexUpdated ->
  (update_blog_index now (update_blog_index now w).2).1 = IndexUpdated
  /\ index_html (update_blog_index now (update_blog_index now w).2).2
     = index_html (update_blog_index now w).2.
Proof.
  intros Hnone (content & page1 & Hpage & Hfirst)%update_blog_index_updated_inv.
  rewrite (cards_html_unpublished now _ Hnone) in Hfirst.
  pose proof (regenerate_without_cards_again _ _ Hfirst) as Hsecond.
  rewrite (update_blog_index_updated now w content page1)
    by (by rewrite ?(cards_html_unpublished now _ Hnone)).
  rewrite (update_blog_index_updated now _ page1 page1); [done|done|].
  change (metadata_cache (_, write_index page1 (backup_index content w)).2)
    with (metadata_cache w).
  by rewrite (cards_html_unpublished now _ Hnone).
Qed.

Lemma update_blog_index_idempotent_unpublished_witness :
  index_html
    (update_blog_index (lib:=example_lib) ""
       (update_blog_index (lib:=example_lib) "" draft_site).2).2
  = index_html (update_blog_index (lib:=example_lib) "" draft_site).2.
Proof.
  destruct (update_blog_index_idempotent_unpublished (lib:=example_lib) "" draft_site)
    as [_ Hsame]; [| |exact Hsame].
  - intros post Hin. change (post ∈ [draft_post]) in Hin.
    by apply list_elem_of_singleton in Hin as ->.
  - reflexivity.
Defined.

(** *** The order of the cards *)

Lemma not_older_le (x y : PostMetadata) :
  not_older x y <-> String.le (created_date y) (created_date x).
Proof.
  unfold not_older, String.le, String.ltb, String.leb.
  rewrite (String.compare_antisym (created_date y)).
  destruct (String.compare (created_date x) (created_date y)); simpl; split; done.
Qed.

Lemma not_older_trans (x y z : PostMetadata) :
  not_older x y -> not_older y z -> not_older x z.
Proof. rewrite !not_older_le. intros Hxy Hyz. by etrans. Qed.

Lemma older_not_older (x y : PostMetadata) :
  String.ltb (created_date x) (created_date y) = true -> not_older y x.
Proof.
  unfold not_older, String.ltb.
  rewrite (String.compare_antisym (created_date y)).
  by destruct (String.compare (created_date x) (created_date y)).
Qed.

Lemma insert_post_perm (x : PostMetadata) (l : list PostMetadata) :
  insert_post x l ≡ₚ x :: l.
Proof.
  induction l as [|y l IH]; simpl; [done|].
  destruct (String.ltb _ _); [|done]. by rewrite IH, Permutation_swap.
Qed.

Lemma insert_post_sorted (x : PostMetadata) (l : list PostMetadata) :
  StronglySorted not_older l -> StronglySorted not_older (insert_post x l).
Proof.
  induction l as [|y l IH]; simpl; intros Hsorted.
  - repeat constructor.
  - apply StronglySorted_inv in Hsorted as [Hl Hy].
    destruct (String.ltb (created_date x) (created_date y)) eqn:Hxy.
    + constructor; [by apply IH|].
      rewrite insert_post_perm. constructor; [by apply older_not_older|done].
    + constructor; [by constructor|].
      constructor; [done|].
      eapply Forall_impl; [exact Hy|]. intros z Hyz. by eapply not_older_trans.
Qed.

(** X19. The posts are listed newest first: [sorted_posts] gives a
    permutation of the records in which no post comes before a newer
    one, and the listing has one card for each published record. *)
Theorem sorted_posts_newest_first `{lib : PyLib} (now : datetime)
    (cache : list (string * PostMetadata)) :
  sorted_posts (Dict.values cache) ≡ₚ Dict.values cache
  /\ StronglySorted not_older (sorted_posts (Dict.values cache))
  /\ length (cards_html now cache)
     = length (filter (fun post => published post = true) (Dict.values cache)).
Proof.
  assert (Hperm : forall l, sorted_posts l ≡ₚ l).
  { unfold sorted_posts. induction l as [|x l IH]; simpl; [done|].
    by rewrite insert_post_perm, IH. }
  split_and!.
  - apply Hperm.
  - unfold sorted_posts. induction (Dict.values cache) as [|x l IH]; simpl.
    + constructor.
    + by apply insert_post_sorted.
  - unfold cards_html. rewrite length_fmap. by rewrite Hperm.
Qed.

(** ** The embedded video id *)

Lemma search_embed_id_at (p : nat) : forall src,
  (forall q, q < p -> PyStr.startswith "youtube.com/embed/" (PyStr.drop q src) = false) ->
  PyStr.startswith "youtube.com/embed/" (PyStr.drop p src) = true ->
  take_while is_id_char (PyStr.drop (p + 18) src) <> "" ->
  search_embed_id src = Some (take_while is_id_char (PyStr.drop (p + 18) src)).
Proof.
  induction p as [|p IH]; intros src Hbefore Hat Hrun; rewrite search_embed_id_unfold.
  - change (PyStr.drop 0 src) with src in Hat.
    change (0 + 18) with 18 in *. rewrite Hat.
    destruct (take_while is_id_char (PyStr.drop 18 src)) eqn:Htake;
      [congruence|reflexivity].
  - pose proof (Hbefore 0 ltac:(lia)) as Hhere.
    change (PyStr.drop 0 src) with src in Hhere. rewrite Hhere.
    destruct src as [|c src]; [done|].
    change (PyStr.drop (S p) (String c src)) with (PyStr.drop p src) in Hat.
    change (PyStr.drop (S p + 18) (String c src)) with (PyStr.drop (p + 18) src) in *.
    apply IH; [|done..]. intros q Hq. apply (Hbefore (S q)). lia.
Qed.

(** X20. When the first [youtube.com/embed/] of an address is followed
    by a character of [[A-Za-z0-9_-]], the scanner's pattern yields the
    whole run of such characters after it; an address without that text
    yields nothing. *)
Theorem search_embed_id_first (src : string) :
  (forall p,
      PyStr.find "youtube.com/embed/" src 0 = Some p ->
      take_while is_id_char (PyStr.drop (p + 18) src) <> "" ->
      search_embed_id src = Some (take_while is_id_char (PyStr.drop (p + 18) src)))
  /\ (PyStr.contains "youtube.com/embed/" src = false -> search_embed_id src = None).
Proof.
  split.
  - intros p (_ & Hat & Hbefore)%find_first Hrun.
    apply search_embed_id_at; [|done..]. intros q Hq. apply Hbefore. lia.
  - induction src as [|c src IH]; [done|].
    rewrite contains_cons, orb_false_iff. intros [Hstart Hrest].
    rewrite search_embed_id_unfold, Hstart. by apply IH.
Qed.

(** ** Searching the store *)

Lemma lower_idempotent (s : string) : PyStr.lower (PyStr.lower s) = PyStr.lower s.
Proof. apply lower_fixed, all_chars_lower. Qed.

Lemma lower_empty (s : string) : PyStr.lower s = "" <-> s = "".
Proof. by destruct s. Qed.

Lemma search_posts_nonempty (query typed : string)
    (cache : list (string * PostMetadata)) :
  query <> "" ->
  search_posts query typed cache = search_loop (PyStr.lower query) (Dict.values cache).
Proof.
  intros Hq. unfold search_posts.
  destruct (decide (query = "")) as [|_]; [done|].
  by destruct (decide (query = "")).
Qed.

(** X21. The search does not depend on the case of the query: a query
    and its lower-case form give the same outcome on every store. *)
Theorem search_posts_ignores_query_case (query typed : string)
    (cache : list (string * PostMetadata)) :
  search_posts (PyStr.lower query) typed cache = search_posts query typed cache.
Proof.
  destruct (decide (query = "")) as [->|Hq]; [done|].
  assert (Hl : PyStr.lower query <> "").
  { intros Hl. by apply (proj1 (lower_empty query)) in Hl. }
  by rewrite !search_posts_nonempty, lower_idempotent.
Qed.

Lemma search_loop_results (query_lower : string) (posts results : list PostMetadata) :
  search_loop query_lower posts = inr results ->
  results `sublist_of` posts
  /\ Forall (fun post => post_matches query_lower post = inr true) results
  /\ forall post, post ∈ posts -> post_matches query_lower post = inr true ->
                  post ∈ results.
Proof.
  revert results. induction posts as [|post posts IH]; simpl; intros results.
  - intros [= <-]. split_and!; [done|done|]. by intros post ?%elem_of_nil.
  - destruct (post_matches query_lower post) as [e|hit] eqn:Hpost; [done|].
    destruct (search_loop query_lower posts) as [e|found]; [done|].
    destruct (IH found eq_refl) as (Hsub & Hall & Hin).
    intros [= <-]. destruct hit.
    + split_and!; [by constructor|by constructor|].
      intros p [->|Hp]%elem_of_cons Hm; [left|right; by apply Hin].
    + split_and!; [by constructor|done|].
      intros p [->|Hp]%elem_of_cons Hm; [congruence|by apply Hin].
Qed.

(** X22. When [search_posts] returns for a query that is not empty, its
    results are records of the store in store order, each of them
    matches, and no matching record is left out; a record matches when
    the lower-case query occurs in its lower-case title, description,
    keywords or series name. *)
Theorem search_posts_results (query typed : string)
    (cache : list (string * PostMetadata)) (results : list PostMetadata) :
  query <> "" ->
  search_posts query typed cache = inr results ->
  results `sublist_of` Dict.values cache
  /\ Forall (fun post => post_matches (PyStr.lower query) post = inr true) results
  /\ forall post, post ∈ Dict.values cache ->
       post_matches (PyStr.lower query) post = inr true -> post ∈ results.
Proof.
  intros Hq. rewrite search_posts_nonempty by done.
  apply search_loop_results.
Qed.

Lemma search_posts_results_witness :
  search_posts "STUDY" "" [("hello", example_post false); ("draft", draft_post)]
  = inr [example_post false; draft_post]
  /\ [example_post false; draft_post]
     `sublist_of` Dict.values [("hello", example_post false); ("draft", draft_post)].
Proof.
  split; [reflexivity|].
  by apply (search_posts_results "STUDY" ""
              [("hello", example_post false); ("draft", draft_post)]).
Defined.

(** X23. A record without keywords (a scan leaves [None] there for a
    [content] attribute without a value) makes the search raise for
    every query that is not empty and occurs neither in the title nor in
    the description of that record. *)
Theorem search_posts_raises_without_keywords (query typed : string)
    (cache : list (string * PostMetadata)) (post : PostMetadata) :
  query <> "" ->
  post ∈ Dict.values cache ->
  keywords post = None ->
  PyStr.contains (PyStr.lower query) (PyStr.lower (title post)) = false ->
  PyStr.contains (PyStr.lower query) (PyStr.lower (description post)) = false ->
  search_posts query typed cache = inl AttributeError.
Proof.
  intros Hq Hin Hkw Htitle Hdesc. rewrite search_posts_nonempty by done.
  assert (Hpost : post_matches (PyStr.lower query) post = inl AttributeError).
  { unfold post_matches. by rewrite Htitle, Hdesc, Hkw. }
  induction (Dict.values cache) as [|p posts IH]; [by apply elem_of_nil in Hin|].
  simpl. apply elem_of_cons in Hin as [<-|Hin].
  - by rewrite Hpost.
  - destruct (post_matches (PyStr.lower query) p) as [[]|hit]; [done|].
    by rewrite IH.
Qed.

Lemma search_posts_raises_without_keywords_witness :
  search_posts "night" "" [("hello", example_post false); ("bare", keywordless_post)]
  = inl AttributeError.
Proof.
  apply (search_posts_raises_without_keywords "night" "" _ keywordless_post);
    [done| |reflexivity..].
  right. left.
Defined.

(** ** Deleting a post *)

Lemma dict_get_delete {V} (k k' : string) (d : list (string * V)) :
  Dict.get k' (dict_delete k d) = if decide (k' = k) then None else Dict.get k' d.
Proof.
  unfold dict_delete. induction d as [|[k0 v0] d IH]; simpl.
  - by case_decide.
  - rewrite filter_cons. simpl. destruct (decide (k0 <> k)) as [Hk0|Hk0].
    + simpl. rewrite IH. repeat case_decide; congruence.
    + apply dec_stable in Hk0. subst k0. rewrite IH.
      repeat case_decide; congruence.
Qed.

Lemma string_app_inj_r (a b c : string) : a +:+ c = b +:+ c -> a = b.
Proof.
  intros Heq. apply (f_equal PyStr.rev) in Heq. rewrite !rev_app in Heq.
  apply (inj (String.app (PyStr.rev c))) in Heq.
  by rewrite <- (rev_involutive a), Heq, rev_involutive.
Qed.

Lemma update_blog_index_frame `{lib : PyLib} (now : datetime) (w : World) :
  metadata_cache (update_blog_index now w).2 = metadata_cache w
  /\ metadata_file (update_blog_index now w).2 = metadata_file w
  /\ metadata_backups (update_blog_index now w).2 = metadata_backups w
  /\ blog_files (update_blog_index now w).2 = blog_files w.
Proof.
  unfold update_blog_index. destruct (index_html w) as [content|]; [|done].
  by destruct (regenerate content _).
Qed.

(** X24. Called with a slug (one that is not empty, so that the menu
    of posts is not shown), [delete_post] deletes exactly when the slug
    is in the store, the prompt is confirmed and the line entered is
    [DELETE]; in every other case it changes nothing, and for a slug that
    is not in the store it reports that the post was not found. *)
Theorem delete_post_guards `{lib : PyLib} (now : datetime) (slug : string)
    (confirmed : bool) (confirm_text : string) (s : Site) :
  slug <> "" ->
  ((delete_post now slug confirmed confirm_text s).1 = Deleted
   <-> Dict.mem slug (metadata_cache (site_world s)) = true
       /\ confirmed = true /\ PyStr.strip confirm_text = "DELETE")
  /\ ((delete_post now slug confirmed confirm_text s).1 <> Deleted ->
      (delete_post now slug confirmed confirm_text s).2 = s)
  /\ (Dict.mem slug (metadata_cache (site_world s)) = false ->
      (delete_post now slug confirmed confirm_text s).1 = PostNotFound).
Proof.
  intros _. unfold delete_post.
  destruct (Dict.mem slug (metadata_cache (site_world s))); simpl.
  2: { split_and!; [|done..]. split; [done|]. by intros [? _]. }
  destruct confirmed; simpl.
  2: { split_and!; [|done..]. split; [done|]. by intros (_ & ? & _). }
  case_bool_decide as Htext; simpl.
  - split_and!; [|done..]. by split.
  - split_and!; [|done..]. split; [done|]. by intros (_ & _ & ?).
Qed.

Lemma delete_post_guards_witness :
  (delete_post (lib:=example_lib) "" "hello" true "delete" example_deletion_site).2
  = example_deletion_site
  /\ (delete_post (lib:=example_lib) "" "gone" true "DELETE" example_deletion_site).1
     = PostNotFound.
Proof.
  split.
  - apply (delete_post_guards (lib:=example_lib) "" "hello" true "delete"
             example_deletion_site); [done|].
    vm_compute. discriminate.
  - by apply (delete_post_guards (lib:=example_lib) "" "gone" true "DELETE"
                example_deletion_site).
Defined.

(** X25. A deletion that goes through removes the slug from the store
    and leaves every other entry as it was, writes the new store to the
    metadata file, removes the post file from the blog directory and
    puts the removed file among the backups. *)
Theorem delete_post_removes `{lib : PyLib} (now : datetime) (slug : string)
    (confirm_text : string) (s : Site) :
  Dict.mem slug (metadata_cache (site_world s)) = true ->
  PyStr.strip confirm_text = "DELETE" ->
  let s' := (delete_post now slug true confirm_text s).2 in
  Dict.get slug (metadata_cache (site_world s')) = None
  /\ (forall k, k <> slug ->
        Dict.get k (metadata_cache (site_world s'))
        = Dict.get k (metadata_cache (site_world s)))
  /\ metadata_file (site_world s') = Some (metadata_cache (site_world s'))
  /\ (forall f, f ∈ blog_files (site_world s') <->
                f ∈ blog_files (site_world s) /\ stem f <> slug)
  /\ (forall f, f ∈ blog_files (site_world s) -> stem f = slug -> f ∈ post_backups s').
Proof.
  intros Hmem Htext s'. subst s'. unfold delete_post.
  rewrite Hmem, Htext. simpl.
  set (w := save_metadata _).
  destruct (update_blog_index_frame now w) as (-> & -> & _ & ->).
  unfold w. simpl. split_and!.
  - rewrite dict_get_delete. by rewrite decide_True.
  - intros k Hk. rewrite dict_get_delete. by rewrite decide_False.
  - done.
  - intros f. rewrite list_elem_of_filter. unfold file_name.
    split; intros [H1 H2]; split; try done.
    + intros Heq. apply H1. by rewrite Heq.
    + intros Heq. apply H2. by apply string_app_inj_r in Heq.
  - intros f Hin Hstem. apply elem_of_app. left.
    apply list_elem_of_filter. split; [|done]. unfold file_name. by rewrite Hstem.
Qed.

Lemma delete_post_removes_witness :
  Dict.get "hello"
    (metadata_cache
       (site_world
          (delete_post (lib:=example_lib) "" "hello" true " DELETE" example_deletion_site).2))
  = None.
Proof.
  by apply (delete_post_removes (lib:=example_lib) "" "hello" " DELETE"
              example_deletion_site).
Defined.

(** ** Rendering a post from its template *)

Lemma replace_go_skip (old new : string) (u : string) : forall b,
  PyStr.replace_go old new (String.length u) (u +:+ b) = PyStr.replace_go old new 0 b.
Proof.
  induction u as [|c u IH]; intros b; simpl; [done|]. apply IH.
Qed.

Lemma replace_go_unfold (old new : string) (c : ascii) (s : string) :
  PyStr.replace_go old new 0 (String c s)
  = if PyStr.startswith old (String c s)
    then new +:+ PyStr.replace_go old new (String.length old - 1) s
    else String c (PyStr.replace_go old new 0 s).
Proof. done. Qed.

(** A text without the first character of [old] is left as it is. *)
Lemma replace_absent (c0 : ascii) (old new s : string) :
  all_chars (fun c => negb (bool_decide (c = c0))) s = true ->
  PyStr.replace (String c0 old) new s = s.
Proof.
  unfold PyStr.replace. induction s as [|c s IH]; [done|].
  intros Hs. rewrite replace_go_unfold, startswith_cons.
  simpl in Hs. apply andb_true_iff in Hs as [Hc Hs].
  apply negb_true_iff, bool_decide_eq_false in Hc.
  rewrite bool_decide_eq_false_2 by congruence. cbn [andb]. by rewrite IH.
Qed.

(** The one occurrence of [old] in a text without its first character
    elsewhere is replaced. *)
Lemma replace_once (c0 : ascii) (old new a b : string) :
  all_chars (fun c => negb (bool_decide (c = c0))) a = true ->
  all_chars (fun c => negb (bool_decide (c = c0))) b = true ->
  PyStr.replace (String c0 old) new (a +:+ String c0 old +:+ b) = a +:+ new +:+ b.
Proof.
  intros Ha Hb. unfold PyStr.replace. induction a as [|c a IH].
  - change ("" +:+ String c0 old +:+ b) with (String c0 (old +:+ b)).
    rewrite replace_go_unfold.
    assert (Hstart : PyStr.startswith (String c0 old) (String c0 (old +:+ b)) = true).
    { apply startswith_spec. by exists b. }
    rewrite Hstart.
    replace (String.length (String c0 old) - 1) with (String.length old)
      by (cbn [String.length]; lia).
    rewrite replace_go_skip.
    by rewrite (replace_absent c0 old new b Hb : PyStr.replace_go _ _ 0 b = b).
  - simpl in Ha. apply andb_true_iff in Ha as [Hc Ha].
    apply negb_true_iff, bool_decide_eq_false in Hc.
    change (String c a +:+ String c0 old +:+ b)
      with (String c (a +:+ String c0 old +:+ b)).
    rewrite replace_go_unfold, startswith_cons.
    rewrite bool_decide_eq_false_2 by congruence. cbn [andb]. by rewrite IH.
Qed.

(** Another word after the same first character is left alone. *)
Lemma replace_other (c0 : ascii) (old new a rest : string) :
  all_chars (fun c => negb (bool_decide (c = c0))) a = true ->
  all_chars (fun c => negb (bool_decide (c = c0))) rest = true ->
  PyStr.startswith old rest = false ->
  PyStr.replace (String c0 old) new (a +:+ String c0 rest) = a +:+ String c0 rest.
Proof.
  intros Ha Hrest Hstart. unfold PyStr.replace. induction a as [|c a IH].
  - change ("" +:+ String c0 rest) with (String c0 rest).
    rewrite replace_go_unfold, startswith_cons, Hstart, andb_false_r.
    by rewrite (replace_absent c0 old new rest Hrest : PyStr.replace_go _ _ 0 rest = rest).
  - simpl in Ha. apply andb_true_iff in Ha as [Hc Ha].
    apply negb_true_iff, bool_decide_eq_false in Hc.
    change (String c a +:+ String c0 rest) with (String c (a +:+ String c0 rest)).
    rewrite replace_go_unfold, startswith_cons.
    rewrite bool_decide_eq_false_2 by congruence. cbn [andb]. by rewrite IH.
Qed.

Lemma load_template_unknown (config : TemplateConfig) (files : list (string * file_state))
    (post_type : string) :
  post_type ∉ post_types -> load_template config files post_type = inl UnknownPostType.
Proof.
  intros Htype. unfold load_template, template_mapping. simpl.
  repeat case_decide; try done; exfalso; apply Htype; subst; unfold post_types;
    rewrite !elem_of_cons; tauto.
Qed.

(** X26. What [generate_post_html] does, case by case: the [ValueError]
    of an unknown post type or of an empty template path; the
    [FileNotFoundError] of a template that is not there; the exception
    of a template that is there but cannot be opened or decoded, which
    is not caught; with the template read, the [TypeError] of the
    replacement by keywords that are [None]; and a page when the
    template is read and the record has keywords. *)
Theorem generate_post_html_outcomes `{lib : PyLib} (config : TemplateConfig)
    (files : list (string * file_state)) (now : datetime) (metadata : PostMetadata)
    (content : string) :
  (post_type metadata ∉ post_types ->
   generate_post_html config files now metadata content = inl UnknownPostType)
  /\ (forall template_path,
        Dict.get (post_type metadata) (template_mapping config) = Some template_path ->
        (template_path = "" ->
         generate_post_html config files now metadata content = inl UnknownPostType)
        /\ (template_path <> "" -> Dict.get template_path files = None ->
            generate_post_html config files now metadata content = inl TemplateNotFound)
        /\ (template_path <> "" -> Dict.get template_path files = Some Unreadable ->
            generate_post_html config files now metadata content
            = inl TemplateUnreadable)
        /\ (forall text,
              template_path <> "" -> Dict.get template_path files = Some (Readable text) ->
              (keywords metadata = None ->
               generate_post_html config files now metadata content
               = inl NoneReplacement)
              /\ (keywords metadata <> None ->
                  exists html,
                    generate_post_html config files now metadata content = inr html))).
Proof.
  unfold generate_post_html. split.
  - intros Htype. by rewrite load_template_unknown.
  - intros template_path Hpath. unfold load_template. rewrite Hpath. split_and!.
    + intros ->. done.
    + intros Hne Hfile. by rewrite decide_False, Hfile.
    + intros Hne Hfile. by rewrite decide_False, Hfile.
    + intros text Hne Hfile. rewrite decide_False, Hfile by done.
      unfold replacements. simpl. split.
      * intros Hkw. by rewrite Hkw.
      * intros Hkw. destruct (keywords metadata); [by eexists|done].
Qed.

(** X27. A template without an opening brace holds no placeholder and
    is returned as it is, whatever the record (with keywords) and the
    content. *)
Theorem generate_post_html_plain_template `{lib : PyLib} (config : TemplateConfig)
    (files : list (string * file_state)) (now : datetime) (metadata : PostMetadata)
    (content template : string) :
  load_template config files (post_type metadata) = inr template ->
  keywords metadata <> None ->
  brace_free template = true ->
  generate_post_html config files now metadata content = inr template.
Proof.
  intros Hload Hkw Hplain. unfold generate_post_html, replacements.
  rewrite Hload. destruct (keywords metadata) as [kw|]; [|done].
  cbn [replace_all]. unfold brace_free in Hplain.
  by rewrite !(replace_absent "{" _ _ template Hplain).
Qed.

Lemma generate_post_html_plain_template_witness :
  generate_post_html (lib:=example_lib) default_templates example_template_files ""
    poster_draft "text"
  = inr "<main>plain</main>".
Proof.
  by apply (generate_post_html_plain_template (lib:=example_lib)).
Defined.

(** X28. The content goes where the template has its [{CONTENT}]: for a
    template with that one placeholder and no other opening brace, and a
    content without opening brace, the page is the template with the
    content in the place of the placeholder. *)
Theorem generate_post_html_content `{lib : PyLib} (config : TemplateConfig)
    (files : list (string * file_state)) (now : datetime) (metadata : PostMetadata)
    (content before after : string) :
  load_template config files (post_type metadata)
  = inr (before +:+ "{CONTENT}" +:+ after) ->
  keywords metadata <> None ->
  brace_free before = true ->
  brace_free after = true ->
  brace_free content = true ->
  generate_post_html config files now metadata content
  = inr (before +:+ content +:+ after).
Proof.
  intros Hload Hkw Hbefore Hafter Hcontent. unfold generate_post_html, replacements.
  rewrite Hload. destruct (keywords metadata) as [kw|]; [|done].
  cbn [replace_all]. unfold brace_free in *.
  assert (Hkeep : forall old new,
            PyStr.startswith old ("CONTENT}" +:+ after) = false ->
            PyStr.replace (String "{" old) new (before +:+ "{CONTENT}" +:+ after)
            = before +:+ "{CONTENT}" +:+ after).
  { intros old new Hold.
    change (before +:+ "{CONTENT}" +:+ after)
      with (before +:+ String "{" ("CONTENT}" +:+ after)).
    apply replace_other; [done| |done]. simpl. exact Hafter. }
  do 7 (rewrite Hkeep by reflexivity).
  rewrite (replace_once "{" "CONTENT}" content before after Hbefore Hafter).
  rewrite replace_absent; [done|].
  by rewrite !all_chars_app, Hbefore, Hcontent, Hafter.
Qed.

Lemma generate_post_html_content_witness :
  generate_post_html (lib:=example_lib) default_templates example_template_files ""
    draft_post "text"
  = inr "<article>text</article>".
Proof.
  by apply (generate_post_html_content (lib:=example_lib) default_templates
              example_template_files "" draft_post "text" "<article>" "</article>").
Defined.

(** ** The validator at the prompt *)

(** X29. The prompt strips what was typed before it validates it, and on
    a stripped text the validator is exact: it accepts the text exactly
    when it has eleven characters, all of them id characters. *)
Theorem validate_youtube_id_stripped (typed : string) :
  validate_youtube_id (PyStr.strip typed) = true
  <-> String.length (PyStr.strip typed) = 11
      /\ all_chars is_id_char (PyStr.strip typed) = true.
Proof.
  rewrite validate_youtube_id_accepts. split.
  - intros (id & Hlen & Hall & [Hs|Hs]); [by rewrite Hs|].
    destruct (strip_by_no_edges PyStr.isspace typed) as [_ Hlast].
    by specialize (Hlast _ _ Hs).
  - intros [Hlen Hall]. exists (PyStr.strip typed). by split_and!; [..|left].
Qed.
